(** * Competitions module (klavotools/background/competitions.js)

    A shallow embedding of the notification scheduling engine of the
    Competitions module, and the properties of its remaining-time
    computation, eligibility test, timing parameters, reconciliation pass
    and pruning operations.

    Conventions of the embedding.
    - JavaScript values are the primitives ([prim]) and arrays of
      primitives ([value]).  A number is [NaN] or an integer [Int z]: every
      quantity the module handles (ids, rating values, seconds,
      milliseconds) is integral.  The one quotient the module forms,
      [remaining / 1000], is computed exactly in [Q] and handed to
      [Math_round].  Fractional numbers and the infinities are not modelled.
    - The host (kango, Date, Audio, DeferredNotification) is modelled by the
      clock reading [now], which does not advance while a method runs, and
      by [calls], the chronological trace of the calls the module makes to
      it.  A notification is named by the handle it was created with; it is
      armed from its creation until [revoke()] is called on it.  What
      DeferredNotification does when the timer of a notification runs out
      is not part of the module: [DeferredNotification_display] follows the
      specification of the module, not code.
    - The table [_hash] is a finite map from the ids, which are
      non-negative integers, to the records.
    - [delay] and [displayTime] are numbers and [audio] is a boolean, as the
      constructor and [setParams] leave them; [rates] and [_timeCorrection]
      are any value.
    - Methods are computations in a state monad with exceptions; a thrown
      exception carries the state reached at the throw. *)

From Stdlib Require Import ZArith QArith Qround String Ascii List Lia DecimalString.
From Stdlib Require DecimalPos DecimalZ.
From stdpp Require Import gmap strings list fin_maps sorting.

Local Open Scope string_scope.
Local Open Scope list_scope.
Local Open Scope Z_scope.

(** ** JavaScript values *)

Inductive number := NaN | Int (z : Z).

Inductive prim :=
| Undefined
| Null
| Bool (b : bool)
| Num (n : number)
| Str (s : string).

Inductive value :=
| Prim (p : prim)
| Arr (l : list prim).

Coercion Prim : prim >-> value.

Module JS.

(** [a + b], [a - b], [a * b] on numbers: NaN is absorbing. *)
Definition add (a b : number) : number :=
  match a, b with Int x, Int y => Int (x + y) | _, _ => NaN end.
Definition sub (a b : number) : number :=
  match a, b with Int x, Int y => Int (x - y) | _, _ => NaN end.
Definition mul (a b : number) : number :=
  match a, b with Int x, Int y => Int (x * y) | _, _ => NaN end.

(** [a > b], [a < b], [a >= b]: false as soon as an operand is NaN. *)
Definition gt (a b : number) : bool :=
  match a, b with Int x, Int y => y <? x | _, _ => false end.
Definition lt (a b : number) : bool :=
  match a, b with Int x, Int y => x <? y | _, _ => false end.
Definition ge (a b : number) : bool :=
  match a, b with Int x, Int y => y <=? x | _, _ => false end.

(** [Math.round]: the nearest integer, a tie going up. *)
Definition Math_round (q : Q) : Z := Qfloor (q + (1 # 2)).

(** [Math.round(a / d)] for a positive integer constant [d]. *)
Definition round_div (a : number) (d : positive) : number :=
  match a with Int x => Int (Math_round (x # d)) | NaN => NaN end.

(** [a === b] on primitives; NaN differs from itself. *)
Definition strict_equals (a b : prim) : bool :=
  match a, b with
  | Undefined, Undefined => true
  | Null, Null => true
  | Bool x, Bool y => Bool.eqb x y
  | Num (Int x), Num (Int y) => x =? y
  | Str x, Str y => String.eqb x y
  | _, _ => false
  end.

(** [typeof a]. *)
Definition typeof (p : prim) : string :=
  match p with
  | Undefined => "undefined"
  | Null => "object"
  | Bool _ => "boolean"
  | Num _ => "number"
  | Str _ => "string"
  end.

(** Truthiness, as tested by [||], [&&], [!!] and [if]. *)
Definition truthy_prim (p : prim) : bool :=
  match p with
  | Undefined | Null => false
  | Bool b => b
  | Num NaN => false
  | Num (Int z) => negb (z =? 0)
  | Str s => negb (String.eqb s EmptyString)
  end.

Definition truthy (v : value) : bool :=
  match v with Prim p => truthy_prim p | Arr _ => true end.

(** [v != void 0]: loose inequality with undefined, which null also
    fails. *)
Definition loose_ne_undefined (v : value) : bool :=
  match v with
  | Prim Undefined | Prim Null => false
  | _ => true
  end.

(** ToString of a primitive.  An integer prints in decimal (the exponent
    notation JavaScript switches to from 1e21 on is not modelled). *)
Definition ToString_number (n : number) : string :=
  match n with
  | NaN => "NaN"
  | Int z => NilZero.string_of_int (Z.to_int z)
  end.

Definition ToString (p : prim) : string :=
  match p with
  | Undefined => "undefined"
  | Null => "null"
  | Bool true => "true"
  | Bool false => "false"
  | Num n => ToString_number n
  | Str s => s
  end.

(** [Array.prototype.indexOf]: the first position holding an element
    strictly equal to [x], or -1. *)
Fixpoint Array_indexOf_from (i : Z) (l : list prim) (x : prim) : Z :=
  match l with
  | [] => -1
  | y :: l' => if strict_equals y x then i else Array_indexOf_from (i + 1) l' x
  end.

Definition Array_indexOf (l : list prim) (x : prim) : Z :=
  Array_indexOf_from 0 l x.

(** [String.prototype.indexOf]: the first position where the argument,
    converted to a string, occurs, or -1. *)
Definition String_indexOf (s : string) (x : prim) : Z :=
  match String.index 0 (ToString x) s with
  | Some i => Z.of_nat i
  | None => -1
  end.

End JS.

Arguments JS.Math_round : simpl never.

(** ** Regular expressions of the shape the module builds

    The pattern text is ['klavogonki.ru/g/\\?gmid=' + id + '$']: literal
    characters, one wildcard [.] and the end anchor.  A string is matched
    character by character, URLs being taken as ASCII. *)

Inductive re_item := Lit (c : ascii) | AnyChar.

Definition re_lits (s : string) : list re_item :=
  map Lit (list_ascii_of_string s).

(** [.] matches any character but a line terminator. *)
Definition item_matches (i : re_item) (c : ascii) : bool :=
  match i with
  | Lit d => Ascii.eqb d c
  | AnyChar => negb (Ascii.eqb c "010" || Ascii.eqb c "013")
  end.

(** The items followed by [$] match [s] from its first character to its
    end. *)
Fixpoint re_match_to_end (re : list re_item) (s : list ascii) : bool :=
  match re, s with
  | [], [] => true
  | i :: re', c :: s' => item_matches i c && re_match_to_end re' s'
  | _, _ => false
  end.

(** [s.search(re)] for an end-anchored [re]: the first position from which
    the pattern matches, or -1. *)
Fixpoint String_search_from (i : Z) (re : list re_item) (s : list ascii) : Z :=
  if re_match_to_end re s then i
  else match s with
       | [] => -1
       | _ :: s' => String_search_from (i + 1) re s'
       end.

Definition String_search (s : string) (re : list re_item) : Z :=
  String_search_from 0 re (list_ascii_of_string s).

(** ** Data model *)

Definition handle := nat.

(** CompetitionData.  The [audio] property of the typedef is never read by
    the module and is left out. *)
Record competition := {
  c_id : Z;
  ratingValue : prim;
  beginTime : prim;
  notification : option handle
}.

(** What a DeferredNotification is constructed with.  Its two hooks close
    over the competition, of which they read the id only ([n_gmid]). *)
Record DeferredNotification := {
  n_title : string;
  n_body : string;
  n_icon : string;
  n_displayTime : option number;
  n_gmid : Z
}.

(** The calls the module makes: [new DeferredNotification] (with the handle
    it yields), [show] and [revoke] on a notification,
    [kango.storage.setItem], [new Audio(url).play()] and
    [kango.browser.tabs.create]. *)
Inductive host_call :=
| NewNotification (h : handle) (n : DeferredNotification)
| ShowAfter (h : handle) (showDelay : number)
| Revoke (h : handle)
| StorageSetItem (key : string) (v : value)
| AudioPlay (url : string)
| TabsCreate (url : string) (focused : bool).

(** The fields of a Competitions object, then the host: the reading of
    [Date.now()], the handle the next notification gets, and the calls made
    so far, oldest first. *)
Record state := {
  rates : value;
  delay : number;
  displayTime : number;
  audio : bool;
  _hash : gmap N competition;
  _timeCorrection : prim;
  now : Z;
  next_handle : handle;
  calls : list host_call
}.

(** A browser tab as the pre-display hook sees it: whether [tab._tab] is
    truthy, and [tab.getUrl()]. *)
Record tab := {
  _tab : bool;
  getUrl : string
}.

(** The parameter object of [setParams]; an absent property reads as
    [Undefined]. *)
Record params := {
  p_rates : value;
  p_delay : value;
  p_displayTime : value;
  p_audio : value
}.

(** ** The monad *)

Inductive exn := TypeError (msg : string) | Error (msg : string).

Inductive result (A : Type) :=
| Ok (a : A) (st : state)
| Throw (e : exn) (st : state).
Arguments Ok {A} a st.
Arguments Throw {A} e st.

Definition M (A : Type) := state → result A.

Definition ret {A} (a : A) : M A := fun st => Ok a st.
Definition throw {A} (e : exn) : M A := fun st => Throw e st.
Definition bind {A B} (m : M A) (f : A → M B) : M B :=
  fun st => match m st with
            | Ok a st' => f a st'
            | Throw e st' => Throw e st'
            end.
Definition get : M state := fun st => Ok st st.
Definition put (st : state) : M unit := fun _ => Ok tt st.
Definition modify (f : state → state) : M unit := fun st => Ok tt (f st).

Notation "'let*' x ':=' m 'in' k" := (bind m (fun x => k))
  (at level 10, x name, m at level 100, k at level 200).
Notation "'run' m 'then' k" := (bind m (fun _ => k))
  (at level 10, m at level 100, k at level 200).

Definition final_state {A} (r : result A) : state :=
  match r with Ok _ st => st | Throw _ st => st end.

Definition when (b : bool) (m : M unit) : M unit :=
  if b then m else ret tt.

(** State updates. *)

Definition set_config (r : value) (d t : number) (a : bool) (st : state) : state :=
  {| rates := r; delay := d; displayTime := t; audio := a;
     _hash := _hash st; _timeCorrection := _timeCorrection st;
     now := now st; next_handle := next_handle st; calls := calls st |}.

Definition set_hash (m : gmap N competition) (st : state) : state :=
  {| rates := rates st; delay := delay st; displayTime := displayTime st;
     audio := audio st;
     _hash := m; _timeCorrection := _timeCorrection st;
     now := now st; next_handle := next_handle st; calls := calls st |}.

Definition set_host (n : handle) (cs : list host_call) (st : state) : state :=
  {| rates := rates st; delay := delay st; displayTime := displayTime st;
     audio := audio st;
     _hash := _hash st; _timeCorrection := _timeCorrection st;
     now := now st; next_handle := n; calls := cs |}.

Definition set_notification (h : handle) (c : competition) : competition :=
  {| c_id := c_id c; ratingValue := ratingValue c; beginTime := beginTime c;
     notification := Some h |}.

(** A call to the host, appended to the trace. *)
Definition host (c : host_call) : M unit :=
  modify (fun st => set_host (next_handle st) (calls st ++ [c]) st).

(** [new DeferredNotification(title, options)] with its hooks assigned. *)
Definition new_DeferredNotification (n : DeferredNotification) : M handle :=
  fun st =>
    let h := next_handle st in
    Ok h (set_host (S h) (calls st ++ [NewNotification h n]) st).

(** The property names of the table in the order [for (id in this._hash)]
    visits them: integer keys ascending. *)
Definition keys (m : gmap N competition) : list N :=
  merge_sort N.le (fst <$> map_to_list m).

(** [for (var id in this._hash) body]: the names are fixed when the loop
    starts; a name deleted before its turn is skipped. *)
Fixpoint for_in_keys (ks : list N) (body : N → M unit) : M unit :=
  match ks with
  | [] => ret tt
  | id :: ks' =>
      let* st := get in
      run (match _hash st !! id with
           | Some _ => body id
           | None => ret tt
           end) then
      for_in_keys ks' body
  end.

Definition for_in_hash (body : N → M unit) : M unit :=
  let* st := get in
  for_in_keys (keys (_hash st)) body.

(** [this._hash[id]], whose properties are read next: reading a property of
    [undefined] throws. *)
Definition hash_get (id : N) : M competition :=
  let* st := get in
  match _hash st !! id with
  | Some c => ret c
  | None => throw (TypeError "Cannot read properties of undefined")
  end.

(** ** The module *)

Section Competitions.

(** The host: [new Date(s).getTime()], [kango.io.getResourceUrl] and the
    [teardown] of the MutableModule base, none of which is part of the
    module. *)
Variable Date_getTime : string → number.
Variable getResourceUrl : string → string.
Variable MutableModule_teardown : M unit.

Definition getParams : M (value * number * number * bool) :=
  let* st := get in
  ret (rates st, delay st, displayTime st, audio st).

(** The [beginTimestamp] variable of [getRemainingTime] once the two
    [typeof] branches are through; [None] is [undefined]. *)
Definition beginTimestamp (beginTime : prim) : option number :=
  match beginTime with
  | Str s => Some (Date_getTime s)
  | Num n => Some (JS.mul n (Int 1000))
  | _ => None
  end.

Definition getRemainingTime (beginTime : prim) : M number :=
  match beginTimestamp beginTime with
  | None => throw (TypeError "Wrong argument type for getRemainingTime() method")
  | Some beginTimestamp =>
      let* st := get in
      match _timeCorrection st with
      | Num timeCorrection =>
          let remaining :=
            JS.sub beginTimestamp (JS.add (Int (now st)) timeCorrection) in
          ret (if JS.gt remaining (Int 0)
               then JS.round_div remaining 1000
               else Int 0)
      | _ => throw (Error "Server time delta is not set")
      end
  end.

Definition competition_url (c : competition) : string :=
  "http://klavogonki.ru/g/?gmid=" +:+ JS.ToString_number (Int (c_id c)).

Definition competition_re (c : competition) : list re_item :=
  re_lits "klavogonki" ++ [AnyChar] ++ re_lits "ru/g/" ++ [Lit "?"]
    ++ re_lits "gmid=" ++ re_lits (JS.ToString_number (Int (c_id c))).

(** [notification.onclick] of the notification [h] made for [c]. *)
Definition notification_onclick (c : competition) (h : handle) : M unit :=
  run host (TabsCreate (competition_url c) true) then
  host (Revoke h).

(** [notification.before], from the moment the host hands over the open
    tabs; the value is what the promise resolves with. *)
Definition notification_before (c : competition) (tabs : list tab) : M bool :=
  let re := competition_re c in
  let found :=
    existsb (fun t => _tab t && negb (String_search (getUrl t) re =? -1)) tabs in
  let audioUrl := getResourceUrl "res/competition.ogg" in
  let* st := get in
  run when (negb found && audio st) (host (AudioPlay audioUrl)) then
  ret (negb found).

Definition _createNotification (c : competition) (remainingTime : number)
  : M handle :=
  let* st := get in
  let title := "Соревнование" in
  let body := "Соревнование x" +:+ JS.ToString (ratingValue c) +:+ " начинается" in
  let icon := getResourceUrl "res/comp_btn.png" in
  let showDelay := JS.sub remainingTime (delay st) in
  let showDelay := if JS.lt showDelay (Int 0) then Int 0 else showDelay in
  let displayTime' := displayTime st in
  let displayTime' :=
    if JS.gt displayTime' (JS.sub remainingTime showDelay)
    then JS.sub remainingTime showDelay
    else displayTime' in
  let* h := new_DeferredNotification
              {| n_title := title; n_body := body; n_icon := icon;
                 n_displayTime :=
                   if JS.gt displayTime' (Int 0) then Some displayTime' else None;
                 n_gmid := c_id c |} in
  run host (ShowAfter h showDelay) then
  ret h.

(** [this.rates.indexOf(x)]: an array or a string has the method, any
    other value does not. *)
Definition rates_indexOf (x : prim) : M Z :=
  let* st := get in
  match rates st with
  | Arr l => ret (JS.Array_indexOf l x)
  | Prim (Str s) => ret (JS.String_indexOf s x)
  | _ => throw (TypeError "this.rates.indexOf is not a function")
  end.

Definition _notify (id : N) : M unit :=
  let* c := hash_get id in
  let* remainingTime := getRemainingTime (beginTime c) in
  let* st := get in
  let* test :=
    if JS.gt (delay st) (Int 0) && JS.gt remainingTime (Int 0)
    then let* i := rates_indexOf (ratingValue c) in
         ret (negb (Z.lnot i =? 0))
    else ret false in
  if test
  then let* h := _createNotification c remainingTime in
       modify (fun st => set_hash (alter (set_notification h) id (_hash st)) st)
  else ret tt.

(** The body of the loop of [_updateNotifications]. *)
Definition _updateNotifications_each (id : N) : M unit :=
  let* c := hash_get id in
  run match notification c with
      | Some h => host (Revoke h)
      | None => ret tt
      end then
  if negb (JS.strict_equals (beginTime c) Null)
  then _notify id
  else ret tt.

Definition _updateNotifications : M unit :=
  for_in_hash _updateNotifications_each.

(** The assignments [setParams] makes to the configuration. *)
Definition assign_params (param : params) (st : state) : state :=
  let rates' := if JS.truthy (p_rates param) then p_rates param else rates st in
  let audio' :=
    if JS.loose_ne_undefined (p_audio param)
    then JS.truthy (p_audio param)
    else audio st in
  let displayTime' :=
    match p_displayTime param with
    | Prim (Num n) => if JS.ge n (Int 0) then n else displayTime st
    | _ => displayTime st
    end in
  let delay' :=
    match p_delay param with
    | Prim (Num n) => if JS.ge n (Int 0) then n else delay st
    | _ => delay st
    end in
  set_config rates' delay' displayTime' audio' st.

Definition setParams (param : params) : M unit :=
  run modify (assign_params param) then
  let* st := get in
  run host (StorageSetItem "competition_delay" (Num (delay st))) then
  run host (StorageSetItem "competition_rates" (rates st)) then
  run host (StorageSetItem "competition_displayTime" (Num (displayTime st))) then
  run host (StorageSetItem "competition_audio" (Bool (audio st))) then
  _updateNotifications.

(** The body of the loop of [_clearStarted]. *)
Definition _clearStarted_each (id : N) : M unit :=
  let* c := hash_get id in
  let beginTime := beginTime c in
  if negb (JS.strict_equals beginTime Null)
  then let* r := getRemainingTime beginTime in
       when (JS.strict_equals (Num r) (Num (Int 0)))
            (modify (fun st => set_hash (delete id (_hash st)) st))
  else ret tt.

Definition _clearStarted : M unit :=
  for_in_hash _clearStarted_each.

(** The body of the loop of [_clearAll]. *)
Definition _clearAll_each (id : N) : M unit :=
  let* c := hash_get id in
  run match notification c with
      | Some h => host (Revoke h)
      | None => ret tt
      end then
  modify (fun st => set_hash (delete id (_hash st)) st).

Definition _clearAll : M unit :=
  for_in_hash _clearAll_each.

Definition teardown : M unit :=
  run MutableModule_teardown then
  _clearAll.

End Competitions.

(** ** The constructor *)

Section Constructor.

(** [kango.storage.getItem], which is not part of the module.  Reading a
    setting leaves no trace in [calls]. *)
Variable getItem : string → value.

(** [Competitions.prototype._init], the initialization method left to
    implement: it does nothing. *)
Definition _init : M unit := ret tt.

(** [new Competitions()]: the fields of the new object; the host is the one
    the constructor runs in. *)
Definition Competitions : M unit :=
  run modify (fun st =>
    let rates :=
      if JS.truthy (getItem "competition_rates")
      then getItem "competition_rates"
      else Arr [Num (Int 3); Num (Int 5)] in
    let delay := getItem "competition_delay" in
    let displayTime := getItem "competition_displayTime" in
    let audio := JS.truthy (getItem "competition_audio") in
    let delay := match delay with Prim (Num n) => n | _ => Int 60 end in
    let displayTime := match displayTime with Prim (Num n) => n | _ => Int 0 end in
    {| rates := rates; delay := delay; displayTime := displayTime;
       audio := audio;
       _hash := ∅; _timeCorrection := Null;
       now := now st; next_handle := next_handle st; calls := calls st |}) then
  _init.

End Constructor.

(** The settings store after the calls [cs]: [getItem] answers the value
    last handed to [setItem] under the key, and null when there is none. *)
Definition storage_getItem (cs : list host_call) (key : string) : value :=
  fold_left (fun v c =>
               match c with
               | StorageSetItem k w => if String.eqb k key then w else v
               | _ => v
               end) cs (Prim Null).

(** The object [getParams] returns, read as the parameter object of
    [setParams]. *)
Definition as_params (cfg : value * number * number * bool) : params :=
  let '(r, d, t, a) := cfg in
  {| p_rates := r; p_delay := Num d; p_displayTime := Num t; p_audio := Bool a |}.

(** ** The display step of the notification primitive *)

(** [revoke()] has been called on the notification [h]. *)
Definition revoked (cs : list host_call) (h : handle) : bool :=
  existsb (fun x => match x with Revoke h' => Nat.eqb h' h | _ => false end) cs.

Section Display.

Variable getResourceUrl : string → string.

(** Modelled from the spec: the display step of the deferred-notification
    primitive (DeferredNotification), which is not part of the module.  The
    spec holds the display of a notification until its pre-display check
    has resolved, takes the value resolved as an annotation for the display
    step (the visual display itself is never suppressed, only audio is),
    and has [revoke()] suppress any display to come.  So, when the timer of
    the notification [h] made for [c] runs out with the tabs [tabs] open: a
    revoked notification does nothing; otherwise the hook is run and, once
    it has resolved, the notification is displayed whatever the value.  The
    result tells whether the notification is displayed. *)
Definition DeferredNotification_display (c : competition) (h : handle)
    (tabs : list tab) : M bool :=
  let* st := get in
  if revoked (calls st) h
  then ret false
  else run notification_before getResourceUrl c tabs then
       ret true.

End Display.

(** ** Vocabulary of the properties *)

(** [x] is found in the array by strict equality. *)
Definition in_rates (x : prim) (l : list prim) : Prop :=
  ∃ y, y ∈ l ∧ JS.strict_equals y x = true.

(** The state once the record [id] has been handed the notification [n],
    scheduled to show after [d]. *)
Definition armed_state (st : state) (id : N) (n : DeferredNotification)
    (d : number) : state :=
  let h := next_handle st in
  set_hash (alter (set_notification h) id (_hash st))
    (set_host (S h) (calls st ++ [NewNotification h n; ShowAfter h d]) st).

(** [st'] is [st] with a notification armed for the record [id]. *)
Definition armed (st st' : state) (id : N) : Prop :=
  ∃ n d, st' = armed_state st id n d.

(** The URL ends with the address of the competition page as the pattern
    of the pre-display hook reads it: [klavogonki], one character that is
    not a line terminator, [ru/g/?gmid=] and the id. *)
Definition url_targets (url : string) (c : competition) : Prop :=
  ∃ (pre : list ascii) (w : ascii),
    list_ascii_of_string url
    = pre ++ list_ascii_of_string "klavogonki" ++ [w]
        ++ list_ascii_of_string "ru/g/?gmid="
        ++ list_ascii_of_string (JS.ToString_number (Int (c_id c)))
    ∧ w ≠ "010"%char ∧ w ≠ "013"%char.

(** Some open tab shows the page of the competition. *)
Definition viewing (tabs : list tab) (c : competition) : Prop :=
  ∃ t, t ∈ tabs ∧ _tab t = true ∧ url_targets (getUrl t) c.

(** The [revoke()] call a record gives rise to when its [notification]
    property is set, and those of the records named by [ks], in order. *)
Definition revocation (c : competition) : list host_call :=
  match notification c with
  | Some h => [Revoke h]
  | None => []
  end.

Definition revocations (m : gmap N competition) (ks : list N) : list host_call :=
  ks ≫= (λ k, from_option revocation [] (m !! k)).

(** The start time of the record is one the data model allows: null, a
    string or a number. *)
Definition start_time_ok (c : competition) : Prop :=
  beginTime c = Null ∨ JS.typeof (beginTime c) = "string"
  ∨ JS.typeof (beginTime c) = "number".

(** The record has a start time, and the time from the corrected clock to
    its start instant is not 500 ms or more (it is less, or is NaN). *)
Definition lapsed (Date_getTime : string → number) (st : state)
    (c : competition) : bool :=
  match beginTimestamp Date_getTime (beginTime c), _timeCorrection st with
  | Some ts, Num tc =>
      negb (JS.ge (JS.sub ts (JS.add (Int (now st)) tc)) (Int 500))
  | _, _ => false
  end.

(** [st'] has the configuration, the correction and the clock of [st]. *)
Definition same_config (st st' : state) : Prop :=
  rates st' = rates st ∧ delay st' = delay st
  ∧ displayTime st' = displayTime st ∧ audio st' = audio st
  ∧ _timeCorrection st' = _timeCorrection st ∧ now st' = now st.

(** The state once [revoke()] has been called on the notification of [c],
    if it has one. *)
Definition revoked_state (st : state) (c : competition) : state :=
  set_host (next_handle st) (calls st ++ revocation c) st.

(** The four [kango.storage.setItem] calls of [setParams]. *)
Definition persisted (st : state) : list host_call :=
  [StorageSetItem "competition_delay" (Num (delay st));
   StorageSetItem "competition_rates" (rates st);
   StorageSetItem "competition_displayTime" (Num (displayTime st));
   StorageSetItem "competition_audio" (Bool (audio st))].

(** The value is a number that is not negative (nor NaN): what [setParams]
    accepts as [delay] and as [displayTime]. *)
Definition valid_seconds (v : value) (n : number) : Prop :=
  v = Prim (Num n) ∧ JS.ge n (Int 0) = true.

(** After the calls [cs], the notification [h] made for the competition
    [gmid] is armed: it has been created and [revoke()] has not been called
    on it. *)
Definition live_for (cs : list host_call) (h : handle) (gmid : Z) : Prop :=
  (∃ n, NewNotification h n ∈ cs ∧ n_gmid n = gmid) ∧ Revoke h ∉ cs.

(** After the calls [cs], no competition has two armed notifications. *)
Definition armed_once (cs : list host_call) : Prop :=
  ∀ h1 h2 gmid, live_for cs h1 gmid → live_for cs h2 gmid → h1 = h2.

(** At no moment from [cs] to [cs'], that is, after no call made in
    between, does a competition have two armed notifications. *)
Definition never_two (cs cs' : list host_call) : Prop :=
  ∀ p, cs `prefix_of` p → p `prefix_of` cs' → armed_once p.

(** An armed notification of a competition in the table is the one its
    record refers to. *)
Definition owned (st : state) : Prop :=
  ∀ k c h, _hash st !! k = Some c → live_for (calls st) h (c_id c) →
           notification c = Some h.

(** Two records of the table do not share an id. *)
Definition ids_unique (st : state) : Prop :=
  ∀ k1 k2 c1 c2, _hash st !! k1 = Some c1 → _hash st !! k2 = Some c2 →
                 c_id c1 = c_id c2 → k1 = k2.

(** The table of [st'] holds the competitions of the table of [st], under
    the same names and with the same id, rating value and start time. *)
Definition same_events (st st' : state) : Prop :=
  ∀ k, match _hash st !! k with
       | Some c =>
           ∃ c', _hash st' !! k = Some c' ∧ c_id c' = c_id c
                 ∧ ratingValue c' = ratingValue c ∧ beginTime c' = beginTime c
       | None => _hash st' !! k = None
       end.

(** A call that neither creates nor revokes a notification. *)
Definition passive (x : host_call) : Prop :=
  (∀ h n, x ≠ NewNotification h n) ∧ (∀ h, x ≠ Revoke h).

(** The handles the trace revokes and those the records refer to have been
    handed out already. *)
Definition allocated (st : state) : Prop :=
  (∀ h, Revoke h ∈ calls st → (h < next_handle st)%nat)
  ∧ (∀ k c h, _hash st !! k = Some c → notification c = Some h →
     (h < next_handle st)%nat).

(** The record is eligible for a notification under the configuration and
    the clock of [st]: its remaining time is computed and is greater than 0,
    the delay is greater than 0, and the rating value is found in the rates
    array. *)
Definition eligible (Date_getTime : string → number) (st : state)
    (c : competition) : Prop :=
  ∃ r l, getRemainingTime Date_getTime (beginTime c) st = Ok r st
         ∧ JS.gt (delay st) (Int 0) = true
         ∧ JS.gt r (Int 0) = true
         ∧ rates st = Arr l
         ∧ in_rates (ratingValue c) l.

(** ** Sample hosts and states, used to run the module on concrete inputs *)

(** A date parser that knows one ISO-8601 string and answers NaN to any
    other, as [Date] does to a string it cannot read. *)
Definition sample_Date_getTime (s : string) : number :=
  if String.eqb s "1970-01-01T00:00:10.000Z" then Int 10000 else NaN.

Definition sample_getResourceUrl (s : string) : string :=
  "chrome-extension://klavotools/" +:+ s.

Definition sample_base_teardown : M unit := ret tt.

(** The defaults of the constructor, an empty table, the clock at 4000 ms
    and a correction of 250 ms. *)
Definition sample_idle : state :=
  {| rates := Arr [Num (Int 3); Num (Int 5)]; delay := Int 60;
     displayTime := Int 0; audio := false;
     _hash := ∅; _timeCorrection := Num (Int 250);
     now := 4000; next_handle := 0%nat; calls := [] |}.

(** One competition x3, due at 304 s, that is 299750 ms after the corrected
    clock. *)
Definition sample_c7 : competition :=
  {| c_id := 7; ratingValue := Num (Int 3); beginTime := Num (Int 304);
     notification := None |}.

Definition sample_one : state :=
  {| rates := Arr [Num (Int 3); Num (Int 5)]; delay := Int 60;
     displayTime := Int 0; audio := false;
     _hash := {[ 7%N := sample_c7 ]}; _timeCorrection := Num (Int 250);
     now := 4000; next_handle := 0%nat; calls := [] |}.

(** Two competitions with a notification armed for each. *)
Definition sample_two : state :=
  {| rates := Arr [Num (Int 3); Num (Int 5)]; delay := Int 60;
     displayTime := Int 0; audio := false;
     _hash :=
       {[ 7%N := {| c_id := 7; ratingValue := Num (Int 3);
                    beginTime := Num (Int 304); notification := Some 0%nat |};
          9%N := {| c_id := 9; ratingValue := Num (Int 5);
                    beginTime := Num (Int 904); notification := Some 1%nat |} ]};
     _timeCorrection := Num (Int 250);
     now := 4000; next_handle := 2%nat;
     calls :=
       [NewNotification 0%nat {| n_title := "Соревнование";
                             n_body := "Соревнование x3 начинается";
                             n_icon := "chrome-extension://klavotools/res/comp_btn.png";
                             n_displayTime := None; n_gmid := 7 |};
        ShowAfter 0%nat (Int 240);
        NewNotification 1%nat {| n_title := "Соревнование";
                             n_body := "Соревнование x5 начинается";
                             n_icon := "chrome-extension://klavotools/res/comp_btn.png";
                             n_displayTime := None; n_gmid := 9 |};
        ShowAfter 1%nat (Int 840)] |}.

(** One competition due at 10 s, 400 ms after the corrected clock
    (9350 ms + 250 ms). *)
Definition sample_c3 : competition :=
  {| c_id := 3; ratingValue := Num (Int 5); beginTime := Num (Int 10);
     notification := None |}.

Definition sample_soon : state :=
  {| rates := Arr [Num (Int 3); Num (Int 5)]; delay := Int 60;
     displayTime := Int 0; audio := false;
     _hash := {[ 3%N := sample_c3 ]}; _timeCorrection := Num (Int 250);
     now := 9350; next_handle := 0%nat; calls := [] |}.

(** The idle sample with the audio setting on. *)
Definition sample_loud : state :=
  set_config (rates sample_idle) (delay sample_idle) (displayTime sample_idle)
    true sample_idle.

(** A parameter object whose only property is [audio: null]. *)
Definition sample_audio_null : params :=
  {| p_rates := Undefined; p_delay := Undefined; p_displayTime := Undefined;
     p_audio := Null |}.

(** A parameter object whose only property is [delay: 0]. *)
Definition sample_delay_zero : params :=
  {| p_rates := Undefined; p_delay := Num (Int 0); p_displayTime := Undefined;
     p_audio := Undefined |}.

(** A parameter object whose only property is [displayTime: 10]. *)
Definition sample_display_ten : params :=
  {| p_rates := Undefined; p_delay := Undefined; p_displayTime := Num (Int 10);
     p_audio := Undefined |}.

(** One competition x5 due at 34 s, 29750 ms after the corrected clock,
    under a display time of 45 s. *)
Definition sample_c5 : competition :=
  {| c_id := 5; ratingValue := Num (Int 5); beginTime := Num (Int 34);
     notification := None |}.

Definition sample_near : state :=
  {| rates := Arr [Num (Int 3); Num (Int 5)]; delay := Int 60;
     displayTime := Int 45; audio := false;
     _hash := {[ 5%N := sample_c5 ]}; _timeCorrection := Num (Int 250);
     now := 4000; next_handle := 0%nat; calls := [] |}.

(** A store that holds no setting. *)
Definition sample_empty_store (key : string) : value := Prim Null.

(** The sample competition before the correction is established. *)
Definition sample_unset : state :=
  {| rates := Arr [Num (Int 3); Num (Int 5)]; delay := Int 60;
     displayTime := Int 0; audio := false;
     _hash := {[ 7%N := sample_c7 ]}; _timeCorrection := Null;
     now := 4000; next_handle := 0%nat; calls := [] |}.

(** The competition of [sample_soon] with a notification armed for it. *)
Definition sample_due : state :=
  {| rates := Arr [Num (Int 3); Num (Int 5)]; delay := Int 60;
     displayTime := Int 0; audio := false;
     _hash := {[ 3%N := {| c_id := 3; ratingValue := Num (Int 5);
                            beginTime := Num (Int 10);
                            notification := Some 0%nat |} ]};
     _timeCorrection := Num (Int 250);
     now := 9350; next_handle := 1%nat;
     calls :=
       [NewNotification 0%nat
          {| n_title := "Соревнование"; n_body := "Соревнование x5 начинается";
             n_icon := "chrome-extension://klavotools/res/comp_btn.png";
             n_displayTime := None; n_gmid := 3 |};
        ShowAfter 0%nat (Int 0)] |}.

(** One competition whose start time is a string the parser cannot read. *)
Definition sample_c8 : competition :=
  {| c_id := 8; ratingValue := Num (Int 3); beginTime := Str "tomorrow";
     notification := None |}.

Definition sample_unread : state :=
  {| rates := Arr [Num (Int 3); Num (Int 5)]; delay := Int 60;
     displayTime := Int 0; audio := false;
     _hash := {[ 8%N := sample_c8 ]}; _timeCorrection := Num (Int 250);
     now := 4000; next_handle := 0%nat; calls := [] |}.

(** [sample_due] once [_clearStarted] has deleted its record: the
    notification 0 is armed and no record refers to it. *)
Definition sample_pruned : state :=
  set_hash ∅ sample_due.

(** A parameter object whose only property is [audio: false]. *)
Definition sample_audio_off : params :=
  {| p_rates := Undefined; p_delay := Undefined; p_displayTime := Undefined;
     p_audio := Bool false |}.

(** * Properties *)

(** ** Arithmetic of [Math.round] *)

Lemma Math_round_div (x : Z) (d : positive) :
  JS.Math_round (x # d) = (2 * x + Z.pos d) / (2 * Z.pos d).
Proof.
  unfold JS.Math_round, Qplus, Qfloor; cbn [Qnum Qden].
  f_equal; lia.
Qed.

Lemma Math_round_nearest (x : Z) (d : positive) :
  2 * Z.pos d * JS.Math_round (x # d) - Z.pos d ≤ 2 * x
  ∧ 2 * x < 2 * Z.pos d * JS.Math_round (x # d) + Z.pos d.
Proof.
  rewrite Math_round_div.
  pose proof (Z.div_mod (2 * x + Z.pos d) (2 * Z.pos d) ltac:(lia)) as Hd.
  pose proof (Z.mod_pos_bound (2 * x + Z.pos d) (2 * Z.pos d) ltac:(lia)) as Hm.
  lia.
Qed.

Lemma Math_round_1000 (x : Z) :
  1000 * JS.Math_round (x # 1000) - 500 ≤ x
  ∧ x < 1000 * JS.Math_round (x # 1000) + 500.
Proof. pose proof (Math_round_nearest x 1000). lia. Qed.

Lemma Math_round_1000_pos (x : Z) : 0 < x → 0 ≤ JS.Math_round (x # 1000).
Proof. pose proof (Math_round_1000 x). lia. Qed.

Lemma Math_round_1000_zero (x : Z) :
  JS.Math_round (x # 1000) = 0 ↔ -500 ≤ x < 500.
Proof. pose proof (Math_round_1000 x). lia. Qed.

(** ** Remaining time *)

Section RemainingTime.

Variable Date_getTime : string → number.

Lemma beginTimestamp_typeof (bt : prim) :
  beginTimestamp Date_getTime bt = None
  ↔ JS.typeof bt ≠ "string" ∧ JS.typeof bt ≠ "number".
Proof.
  destruct bt; cbn; split; try done; try (intros [? ?]; done).
Qed.

Lemma getRemainingTime_unfold (bt : prim) (st : state) :
  getRemainingTime Date_getTime bt st =
  match beginTimestamp Date_getTime bt with
  | None => Throw (TypeError "Wrong argument type for getRemainingTime() method") st
  | Some ts =>
      match _timeCorrection st with
      | Num tc =>
          let remaining := JS.sub ts (JS.add (Int (now st)) tc) in
          Ok (if JS.gt remaining (Int 0)
              then JS.round_div remaining 1000 else Int 0) st
      | _ => Throw (Error "Server time delta is not set") st
      end
  end.
Proof.
  unfold getRemainingTime.
  destruct (beginTimestamp Date_getTime bt); [|done].
  unfold bind, get. by destruct (_timeCorrection st).
Qed.

(** The computation reads the state and never writes it, whatever its
    outcome. *)
Lemma getRemainingTime_state (bt : prim) (st : state) :
  final_state (getRemainingTime Date_getTime bt st) = st.
Proof.
  rewrite getRemainingTime_unfold.
  destruct (beginTimestamp Date_getTime bt); [|done].
  by destruct (_timeCorrection st).
Qed.

Lemma getRemainingTime_Ok_state (bt : prim) (st st' : state) (r : number) :
  getRemainingTime Date_getTime bt st = Ok r st' → st' = st.
Proof.
  intros H. pose proof (getRemainingTime_state bt st) as Hs.
  by rewrite H in Hs.
Qed.

(** The value returned is a non-negative integer. *)
Lemma getRemainingTime_Ok_nonneg (bt : prim) (st st' : state) (r : number) :
  getRemainingTime Date_getTime bt st = Ok r st' → ∃ z, r = Int z ∧ 0 ≤ z.
Proof.
  rewrite getRemainingTime_unfold.
  destruct (beginTimestamp Date_getTime bt) as [ts|]; [|done].
  destruct (_timeCorrection st) as [| | |tc|]; try done.
  cbn zeta.
  destruct (JS.sub ts (JS.add (Int (now st)) tc)) as [|d]; cbn.
  - intros [= <- _]. exists 0. split; [done|lia].
  - destruct (Z.ltb_spec 0 d); intros [= <- _].
    + eexists. split; [done|]. by apply Math_round_1000_pos.
    + exists 0. split; [done|lia].
Qed.

(** C1. The start instant [start], in milliseconds, of a start-time value
    is what the date parser reads in an ISO-8601 string, and [n * 1000] for
    a Unix-seconds number [n] (NaN for the number NaN).  For such a value
    and an established correction [tc], [getRemainingTime] returns an
    integer [r >= 0]: when [start - (now + tc)] is a positive [d], [r] is
    [Math.round(d / 1000)], the integer nearest to [d / 1000]; otherwise
    (the difference is not positive, or is NaN) [r] is 0. *)
Theorem getRemainingTime_rounds (st : state) (bt : prim) (start tc : number) :
  (∃ s, bt = Str s ∧ start = Date_getTime s)
  ∨ (∃ n : Z, bt = Num (Int n) ∧ start = Int (n * 1000))
  ∨ (bt = Num NaN ∧ start = NaN) →
  _timeCorrection st = Num tc →
  ∃ r : Z,
    getRemainingTime Date_getTime bt st = Ok (Int r) st
    ∧ 0 ≤ r
    ∧ match JS.sub start (JS.add (Int (now st)) tc) with
      | Int d =>
          (0 < d → r = JS.Math_round (d # 1000)
                   ∧ 1000 * r - 500 ≤ d < 1000 * r + 500)
          ∧ (d ≤ 0 → r = 0)
      | NaN => r = 0
      end.
Proof.
  intros Hbt Htc.
  assert (beginTimestamp Date_getTime bt = Some start) as Hts.
  { destruct Hbt as [(s & -> & ->)|[(n & -> & ->)|[-> ->]]]; reflexivity. }
  rewrite getRemainingTime_unfold, Hts, Htc. cbn zeta.
  destruct (JS.sub start (JS.add (Int (now st)) tc)) as [|d]; cbn.
  - exists 0. by repeat split.
  - destruct (Z.ltb_spec 0 d) as [Hd|Hd].
    + exists (JS.Math_round (d # 1000)). split; [done|].
      split; [by apply Math_round_1000_pos|].
      split; [|lia]. intros _. split; [done|apply Math_round_1000].
    + exists 0. split; [done|]. split; [lia|]. split; [lia|done].
Qed.

(** C7, as the module has it.  A type error is thrown exactly when the
    start time is neither of type string nor of type number; a string the
    date parser cannot read is not an error and gives 0 once the
    correction is established.  For a string or a number, the state error
    is thrown exactly when the correction is not of type number.  No
    outcome changes the state. *)
Theorem getRemainingTime_errors (st : state) (bt : prim) :
  ((∃ msg st', getRemainingTime Date_getTime bt st = Throw (TypeError msg) st')
   ↔ JS.typeof bt ≠ "string" ∧ JS.typeof bt ≠ "number")
  ∧ (JS.typeof bt = "string" ∨ JS.typeof bt = "number" →
     ((∃ msg st', getRemainingTime Date_getTime bt st = Throw (Error msg) st')
      ↔ JS.typeof (_timeCorrection st) ≠ "number"))
  ∧ (∀ s, bt = Str s → Date_getTime s = NaN →
     JS.typeof (_timeCorrection st) = "number" →
     getRemainingTime Date_getTime bt st = Ok (Int 0) st)
  ∧ final_state (getRemainingTime Date_getTime bt st) = st.
Proof.
  split; [|split; [|split]].
  - rewrite <- beginTimestamp_typeof, getRemainingTime_unfold. split.
    + intros (msg & st' & H).
      destruct (beginTimestamp Date_getTime bt); [|done].
      by destruct (_timeCorrection st).
    + intros ->. by eexists _, _.
  - intros Hty. rewrite getRemainingTime_unfold.
    destruct (beginTimestamp Date_getTime bt) as [ts|] eqn:Hts.
    + destruct (_timeCorrection st); cbn; split;
        try done; try (by intros (? & ? & ?)); try (by eexists _, _).
    + apply beginTimestamp_typeof in Hts. destruct Hts, Hty; done.
  - intros s -> Hs Htc. rewrite getRemainingTime_unfold. cbn.
    rewrite Hs. by destruct (_timeCorrection st).
  - apply getRemainingTime_state.
Qed.

End RemainingTime.

(** C1 on the Unix-seconds number 304, that is 304000 ms: against a
    corrected clock of 4250 ms it leaves 299750 ms, rounded to 300 s; and on
    the sample date, 10000 ms, which leaves 5750 ms, rounded to 6 s. *)
Lemma getRemainingTime_rounds_witness :
  (∃ r : Z,
     getRemainingTime sample_Date_getTime (Num (Int 304)) sample_idle
     = Ok (Int r) sample_idle
     ∧ 0 ≤ r
     ∧ (0 < 299750 → r = JS.Math_round (299750 # 1000)
                     ∧ 1000 * r - 500 ≤ 299750 < 1000 * r + 500)
       ∧ (299750 ≤ 0 → r = 0))
  ∧ (∃ r : Z,
       getRemainingTime sample_Date_getTime (Str "1970-01-01T00:00:10.000Z")
         sample_idle = Ok (Int r) sample_idle
       ∧ 0 ≤ r
       ∧ (0 < 5750 → r = JS.Math_round (5750 # 1000)
                     ∧ 1000 * r - 500 ≤ 5750 < 1000 * r + 500)
         ∧ (5750 ≤ 0 → r = 0)).
Proof.
  split.
  - apply (getRemainingTime_rounds sample_Date_getTime sample_idle
             (Num (Int 304)) (Int 304000) (Int 250)); [|reflexivity].
    right. left. exists 304. split; reflexivity.
  - apply (getRemainingTime_rounds sample_Date_getTime sample_idle
             (Str "1970-01-01T00:00:10.000Z") (Int 10000) (Int 250));
      [|reflexivity].
    left. eexists. split; reflexivity.
Defined.

(** The two runs: 300 s remain to the Unix-seconds start time 304, and 6 s
    to the sample date. *)
Example getRemainingTime_unix_seconds :
  getRemainingTime sample_Date_getTime (Num (Int 304)) sample_idle
  = Ok (Int 300) sample_idle
  ∧ getRemainingTime sample_Date_getTime (Str "1970-01-01T00:00:10.000Z")
      sample_idle = Ok (Int 6) sample_idle.
Proof. split; vm_compute; reflexivity. Qed.

(** C7 on a number: with the correction established nothing is thrown. *)
Lemma getRemainingTime_errors_witness :
  (∃ msg st', getRemainingTime sample_Date_getTime (Num (Int 10)) sample_idle
              = Throw (Error msg) st')
  ↔ JS.typeof (_timeCorrection sample_idle) ≠ "number".
Proof.
  apply (getRemainingTime_errors sample_Date_getTime sample_idle (Num (Int 10))).
  right. reflexivity.
Defined.

(** C7 as stated fails: a string the parser does not recognise is neither a
    recognised string nor a number, and no type error is thrown for it (the
    call returns 0). *)
Lemma getRemainingTime_unparseable_no_TypeError :
  ¬ ((∃ msg st', getRemainingTime sample_Date_getTime (Str "tomorrow")
                   sample_idle = Throw (TypeError msg) st')
     ↔ ¬ (sample_Date_getTime "tomorrow" ≠ NaN ∨ JS.typeof (Str "tomorrow") = "number")).
Proof.
  intros [_ H].
  destruct H as (msg & st' & H).
  - intros [Hp|Hn]; [by apply Hp|discriminate Hn].
  - discriminate H.
Qed.

(** ** Membership in the rates array *)

Lemma strict_equals_eq (a b : prim) : JS.strict_equals a b = true → a = b.
Proof.
  destruct a as [| |x|[|x]|x], b as [| |y|[|y]|y]; cbn; try done.
  - intros H. by apply Bool.eqb_prop in H as ->.
  - intros H. by apply Z.eqb_eq in H as ->.
  - intros H. by apply String.eqb_eq in H as ->.
Qed.

Lemma strict_equals_refl (a : prim) : a ≠ Num NaN → JS.strict_equals a a = true.
Proof.
  destruct a as [| |x|[|x]|x]; cbn; try done; intros _.
  - apply Bool.eqb_reflx.
  - apply Z.eqb_refl.
  - apply String.eqb_refl.
Qed.

(** For a value other than NaN, being found is plain membership. *)
Lemma in_rates_elem_of (x : prim) (l : list prim) :
  x ≠ Num NaN → in_rates x l ↔ x ∈ l.
Proof.
  intros Hx. split.
  - intros (y & Hy & Heq). by apply strict_equals_eq in Heq as ->.
  - intros Hin. exists x. split; [done|by apply strict_equals_refl].
Qed.

Lemma Array_indexOf_from_range (i : Z) (l : list prim) (x : prim) :
  0 ≤ i → JS.Array_indexOf_from i l x = -1 ∨ i ≤ JS.Array_indexOf_from i l x.
Proof.
  revert i. induction l as [|y l IH]; intros i Hi; cbn; [by left|].
  destruct (JS.strict_equals y x); [right; lia|].
  destruct (IH (i + 1)) as [->|H]; [lia|by left|right; lia].
Qed.

Lemma Array_indexOf_from_found (i : Z) (l : list prim) (x : prim) :
  0 ≤ i → JS.Array_indexOf_from i l x ≠ -1 ↔ in_rates x l.
Proof.
  revert i. induction l as [|y l IH]; intros i Hi; cbn.
  - split; [done|]. intros (y & Hy & _). by apply elem_of_nil in Hy.
  - destruct (JS.strict_equals y x) eqn:Hyx.
    + split; [|lia]. intros _. exists y. split; [apply elem_of_cons; by left|done].
    + rewrite IH by lia. split.
      * intros (z & Hz & Hzx). exists z. split; [apply elem_of_cons; by right|done].
      * intros (z & Hz & Hzx). apply elem_of_cons in Hz as [->|Hz].
        -- congruence.
        -- by exists z.
Qed.

(** [!!~i] is true exactly when [i] is not -1. *)
Lemma not_lnot_index (i : Z) : negb (Z.lnot i =? 0) = true ↔ i ≠ -1.
Proof.
  unfold Z.lnot. rewrite Bool.negb_true_iff, Z.eqb_neq. lia.
Qed.

Lemma indexOf_test_in_rates (l : list prim) (x : prim) :
  negb (Z.lnot (JS.Array_indexOf l x) =? 0) = true ↔ in_rates x l.
Proof.
  rewrite not_lnot_index. by apply Array_indexOf_from_found.
Qed.

(** ** Arming a notification *)

Section Notify.

Variable Date_getTime : string → number.
Variable getResourceUrl : string → string.

Lemma createNotification_shape (st : state) (c : competition) (r : number) :
  ∃ n d,
    _createNotification getResourceUrl c r st
    = Ok (next_handle st)
        (set_host (S (next_handle st))
           (calls st ++ [NewNotification (next_handle st) n; ShowAfter (next_handle st) d])
           st)
    ∧ n_gmid n = c_id c
    ∧ d = (if JS.lt (JS.sub r (delay st)) (Int 0) then Int 0
           else JS.sub r (delay st))
    ∧ n_displayTime n =
        (let t := if JS.gt (displayTime st) (JS.sub r d)
                  then JS.sub r d else displayTime st in
         if JS.gt t (Int 0) then Some t else None).
Proof.
  eexists _, _. split; [|split; [|split]]; cycle 1.
  - shelve.
  - reflexivity.
  - shelve.
  - unfold _createNotification, bind, get, new_DeferredNotification, host,
      modify, ret, set_host; cbn.
    rewrite <- app_assoc. reflexivity.
  Unshelve. all: reflexivity.
Qed.

Lemma rates_indexOf_state (x : prim) (st : state) :
  final_state (rates_indexOf x st) = st.
Proof.
  unfold rates_indexOf, bind, get.
  by destruct (rates st) as [[| | | |]|].
Qed.

(** [_notify] case by case. *)
Lemma notify_unfold (st : state) (id : N) (c : competition) :
  _hash st !! id = Some c →
  _notify Date_getTime getResourceUrl id st =
  match getRemainingTime Date_getTime (beginTime c) st with
  | Throw e _ => Throw e st
  | Ok r _ =>
      if JS.gt (delay st) (Int 0) && JS.gt r (Int 0)
      then match rates_indexOf (ratingValue c) st with
           | Throw e _ => Throw e st
           | Ok i _ =>
               if negb (Z.lnot i =? 0)
               then match _createNotification getResourceUrl c r st with
                    | Ok h st1 =>
                        Ok tt (set_hash (alter (set_notification h) id (_hash st1)) st1)
                    | Throw e st1 => Throw e st1
                    end
               else Ok tt st
           end
      else Ok tt st
  end.
Proof.
  intros Hc.
  pose proof (getRemainingTime_state Date_getTime (beginTime c) st) as Hs.
  unfold _notify, hash_get, bind, get. rewrite Hc. unfold ret at 1.
  destruct (getRemainingTime Date_getTime (beginTime c) st) as [r st1|e st1];
    cbn in Hs; subst st1; [|done].
  destruct (JS.gt (delay st) (Int 0) && JS.gt r (Int 0)); [|done].
  pose proof (rates_indexOf_state (ratingValue c) st) as Hs.
  destruct (rates_indexOf (ratingValue c) st) as [i st1|e st1];
    cbn in Hs; subst st1; [|done].
  unfold ret at 1. by destruct (negb (Z.lnot i =? 0)).
Qed.

(** When [_notify] arms, the state it leaves is an [armed_state], with the
    show delay and the display time [_createNotification] computes. *)
Lemma notify_arming (st : state) (id : N) (c : competition) (r : number) (i : Z) :
  _hash st !! id = Some c →
  getRemainingTime Date_getTime (beginTime c) st = Ok r st →
  JS.gt (delay st) (Int 0) = true →
  JS.gt r (Int 0) = true →
  rates_indexOf (ratingValue c) st = Ok i st →
  i ≠ -1 →
  ∃ n d,
    _notify Date_getTime getResourceUrl id st = Ok tt (armed_state st id n d)
    ∧ n_gmid n = c_id c
    ∧ d = (if JS.lt (JS.sub r (delay st)) (Int 0) then Int 0
           else JS.sub r (delay st))
    ∧ n_displayTime n =
        (let t := if JS.gt (displayTime st) (JS.sub r d)
                  then JS.sub r d else displayTime st in
         if JS.gt t (Int 0) then Some t else None).
Proof.
  intros Hc Hr Hd Hr0 Hi Hne.
  rewrite (notify_unfold st id c Hc), Hr, Hd, Hr0, Hi. cbn [andb].
  apply not_lnot_index in Hne as ->.
  destruct (createNotification_shape st c r) as (n & d & Hn & Hrest).
  exists n, d. by rewrite Hn.
Qed.

Lemma armed_state_calls (st : state) (id : N) (n : DeferredNotification) (d : number) :
  calls (armed_state st id n d)
  = calls st ++ [NewNotification (next_handle st) n; ShowAfter (next_handle st) d].
Proof. reflexivity. Qed.

Lemma not_armed_refl (st : state) (id : N) : ¬ armed st st id.
Proof.
  intros (n & d & H). apply (f_equal (λ s, length (calls s))) in H.
  rewrite armed_state_calls, length_app in H. cbn in H. lia.
Qed.

Lemma rates_indexOf_Arr (st : state) (l : list prim) (x : prim) :
  rates st = Arr l → rates_indexOf x st = Ok (JS.Array_indexOf l x) st.
Proof. intros H. unfold rates_indexOf, bind, get. by rewrite H. Qed.

(** C2. For a record [c] whose remaining time is [r], and a rates array
    [l], [_notify] returns normally, and it arms a notification for the
    record if and only if the delay is greater than 0, [r] is greater than 0
    and the rating value is found in [l].  When the three hold, the
    notification created is one of this competition; when one of them
    fails, and so whenever the rating value is not in [l], the state is left
    as it was: nothing is created, nothing is called and no record
    changes. *)
Theorem notify_arms_iff (st : state) (id : N) (c : competition) (r : number)
    (l : list prim) :
  _hash st !! id = Some c →
  getRemainingTime Date_getTime (beginTime c) st = Ok r st →
  rates st = Arr l →
  ∃ st',
    _notify Date_getTime getResourceUrl id st = Ok tt st'
    ∧ (armed st st' id
       ↔ JS.gt (delay st) (Int 0) = true ∧ JS.gt r (Int 0) = true
         ∧ in_rates (ratingValue c) l)
    ∧ (JS.gt (delay st) (Int 0) = true ∧ JS.gt r (Int 0) = true
       ∧ in_rates (ratingValue c) l →
       ∃ n d, st' = armed_state st id n d ∧ n_gmid n = c_id c)
    ∧ (¬ (JS.gt (delay st) (Int 0) = true ∧ JS.gt r (Int 0) = true
          ∧ in_rates (ratingValue c) l) →
       st' = st)
    ∧ (¬ in_rates (ratingValue c) l → st' = st).
Proof.
  intros Hc Hr Hl.
  pose proof (rates_indexOf_Arr st l (ratingValue c) Hl) as Hi.
  assert (∀ P : Prop, ¬ P → armed st st id ↔ P) as Hno.
  { intros P HP. split; [|done]. intros H. by apply not_armed_refl in H. }
  rewrite (notify_unfold st id c Hc), Hr, Hi.
  destruct (JS.gt (delay st) (Int 0)) eqn:Hd; cbn [andb]; cycle 1.
  { exists st. split; [done|]. split; [apply Hno; by intros (? & _ & _)|].
    split; [by intros (? & _ & _)|done]. }
  destruct (JS.gt r (Int 0)) eqn:Hr0; cycle 1.
  { exists st. split; [done|]. split; [apply Hno; by intros (_ & ? & _)|].
    split; [by intros (_ & ? & _)|done]. }
  destruct (decide (JS.Array_indexOf l (ratingValue c) = -1)) as [Hx|Hx].
  - assert (¬ in_rates (ratingValue c) l) as Hnin.
    { rewrite <- (Array_indexOf_from_found 0) by lia. intros H. by apply H. }
    replace (negb _) with false
      by (symmetry; apply Bool.not_true_iff_false; rewrite not_lnot_index;
          intros H; by apply H).
    exists st. split; [done|]. split; [apply Hno; by intros (_ & _ & ?)|].
    split; [by intros (_ & _ & ?)|done].
  - destruct (notify_arming st id c r _ Hc Hr Hd Hr0 Hi Hx) as (n & d & Hn & Hg & _).
    rewrite (notify_unfold st id c Hc), Hr, Hi, Hd, Hr0 in Hn. cbn [andb] in Hn.
    apply (Array_indexOf_from_found 0) in Hx; [|lia].
    exists (armed_state st id n d). split; [done|].
    split; [split; [done|]; intros _; by exists n, d|].
    split; [intros _; by exists n, d|].
    split; [intros H; by destruct H|done].
Qed.

(** C5. When [_notify] arms a record whose remaining time is [r] under a
    delay [d] (both positive, as arming requires), the notification is shown
    after [max 0 (r - d)] seconds, which lies between 0 and [r]; the display
    time it is created with is [min displayTime (r - showDelay)] when that is
    positive and is left undefined otherwise (also when [displayTime] is
    NaN); a display time that is set, added to the show delay, does not
    exceed [r]. *)
Theorem notify_timing (st : state) (id : N) (c : competition) (r d : Z)
    (l : list prim) :
  _hash st !! id = Some c →
  getRemainingTime Date_getTime (beginTime c) st = Ok (Int r) st →
  delay st = Int d → 0 < d → 0 < r →
  rates st = Arr l → in_rates (ratingValue c) l →
  let showDelay := Z.max 0 (r - d) in
  ∃ n,
    _notify Date_getTime getResourceUrl id st
    = Ok tt (armed_state st id n (Int showDelay))
    ∧ 0 ≤ showDelay ≤ r
    ∧ n_displayTime n =
        match displayTime st with
        | Int t =>
            if 0 <? Z.min t (r - showDelay)
            then Some (Int (Z.min t (r - showDelay)))
            else None
        | NaN => None
        end
    ∧ (∀ e, n_displayTime n = Some e →
       ∃ z, e = Int z ∧ 0 < z ∧ z + showDelay ≤ r).
Proof.
  intros Hc Hr Hd Hd0 Hr0 Hl Hin showDelay.
  pose proof (rates_indexOf_Arr st l (ratingValue c) Hl) as Hi.
  apply (Array_indexOf_from_found 0) in Hin; [|lia].
  destruct (notify_arming st id c (Int r) (JS.Array_indexOf l (ratingValue c))
              Hc Hr) as (n & sd & Hn & _ & Hsd & Ht);
    [rewrite Hd; cbn; lia| cbn; lia | exact Hi | exact Hin |].
  assert (sd = Int showDelay) as ->.
  { rewrite Hsd, Hd. cbn. unfold showDelay.
    destruct (Z.ltb_spec (r - d) 0); f_equal; lia. }
  exists n. split; [done|]. split; [unfold showDelay; lia|].
  assert (n_displayTime n =
          match displayTime st with
          | Int t =>
              if 0 <? Z.min t (r - showDelay)
              then Some (Int (Z.min t (r - showDelay))) else None
          | NaN => None
          end) as Hdt.
  { rewrite Ht. destruct (displayTime st) as [|t]; cbn; [done|].
    destruct (Z.ltb_spec (r - showDelay) t); cbn.
    - rewrite Z.min_r by lia. by destruct (0 <? r - showDelay).
    - rewrite Z.min_l by lia. by destruct (0 <? t). }
  split; [done|].
  intros e He. rewrite Hdt in He.
  destruct (displayTime st) as [|t]; [done|].
  destruct (Z.ltb_spec 0 (Z.min t (r - showDelay))); [|done].
  injection He as <-. eexists. split; [done|]. lia.
Qed.

End Notify.

(** C2 on the sample competition: rating 3 is in [3; 5]. *)
Lemma notify_arms_iff_witness :
  ∃ st',
    _notify sample_Date_getTime sample_getResourceUrl 7%N sample_one = Ok tt st'
    ∧ (armed sample_one st' 7%N
       ↔ JS.gt (delay sample_one) (Int 0) = true
         ∧ JS.gt (Int 300) (Int 0) = true
         ∧ in_rates (ratingValue sample_c7) [Num (Int 3); Num (Int 5)])
    ∧ (JS.gt (delay sample_one) (Int 0) = true
       ∧ JS.gt (Int 300) (Int 0) = true
       ∧ in_rates (ratingValue sample_c7) [Num (Int 3); Num (Int 5)] →
       ∃ n d, st' = armed_state sample_one 7%N n d ∧ n_gmid n = c_id sample_c7)
    ∧ (¬ (JS.gt (delay sample_one) (Int 0) = true
          ∧ JS.gt (Int 300) (Int 0) = true
          ∧ in_rates (ratingValue sample_c7) [Num (Int 3); Num (Int 5)]) →
       st' = sample_one)
    ∧ (¬ in_rates (ratingValue sample_c7) [Num (Int 3); Num (Int 5)]
       → st' = sample_one).
Proof.
  apply (notify_arms_iff sample_Date_getTime sample_getResourceUrl
           sample_one 7%N sample_c7 (Int 300) [Num (Int 3); Num (Int 5)]);
    vm_compute; reflexivity.
Defined.

(** Scenario: a delay of 0 with the rating value in the rates.  Nothing is
    armed and nothing is called. *)
Example notify_delay_zero :
  _notify sample_Date_getTime sample_getResourceUrl 7%N
    (set_config (rates sample_one) (Int 0) (Int 0) false sample_one)
  = Ok tt (set_config (rates sample_one) (Int 0) (Int 0) false sample_one).
Proof. vm_compute. reflexivity. Qed.

(** C5 on the sample competition: 300 s remain, the delay is 60 s, the
    notification shows after 240 s with no display time forced. *)
Lemma notify_timing_witness :
  ∃ n,
    _notify sample_Date_getTime sample_getResourceUrl 7%N sample_one
    = Ok tt (armed_state sample_one 7%N n (Int 240))
    ∧ 0 ≤ 240 ≤ 300
    ∧ n_displayTime n = None
    ∧ (∀ e, n_displayTime n = Some e → ∃ z, e = Int z ∧ 0 < z ∧ z + 240 ≤ 300).
Proof.
  apply (notify_timing sample_Date_getTime sample_getResourceUrl
           sample_one 7%N sample_c7 300 60 [Num (Int 3); Num (Int 5)]);
    try (vm_compute; reflexivity).
  exists (Num (Int 3)). split; [apply list_elem_of_here|reflexivity].
Defined.

(** Scenario: 30 s remain under a delay of 60 s and a display time of 45 s.
    The notification shows at once and is displayed for the 30 s left. *)
Example notify_short_notice :
  ∃ n, _notify sample_Date_getTime sample_getResourceUrl 5%N sample_near
       = Ok tt (armed_state sample_near 5%N n (Int 0))
       ∧ n_displayTime n = Some (Int 30).
Proof. eexists. split; [vm_compute; reflexivity|reflexivity]. Qed.

(** Scenario: a rating value outside the rates.  Nothing is armed. *)
Example notify_other_rating :
  _notify sample_Date_getTime sample_getResourceUrl 7%N
    (set_config (Arr [Num (Int 5)]) (Int 60) (Int 0) false sample_one)
  = Ok tt (set_config (Arr [Num (Int 5)]) (Int 60) (Int 0) false sample_one).
Proof. vm_compute. reflexivity. Qed.

(** ** The pre-display hook *)

Lemma re_match_to_end_nil (s : list ascii) :
  re_match_to_end [] s = true ↔ s = [].
Proof. by destruct s. Qed.

Lemma re_match_to_end_lits (a : list ascii) (re : list re_item) (s : list ascii) :
  re_match_to_end (map Lit a ++ re) s = true
  ↔ ∃ s', s = a ++ s' ∧ re_match_to_end re s' = true.
Proof.
  revert s. induction a as [|x a IH]; intros s; cbn.
  - split; [by exists s|by intros (s' & -> & ?)].
  - destruct s as [|y s]; cbn.
    + split; [done|by intros (? & ? & _)].
    + rewrite Bool.andb_true_iff, IH. split.
      * intros [Hxy (s' & -> & Hs')]. apply Ascii.eqb_eq in Hxy as ->.
        by exists s'.
      * intros (s' & [= -> ->] & Hs'). split; [apply Ascii.eqb_refl|by exists s'].
Qed.

Lemma re_match_to_end_any (re : list re_item) (s : list ascii) :
  re_match_to_end (AnyChar :: re) s = true
  ↔ ∃ w s', s = w :: s' ∧ w ≠ "010"%char ∧ w ≠ "013"%char
            ∧ re_match_to_end re s' = true.
Proof.
  destruct s as [|y s]; cbn.
  - split; [done|by intros (? & ? & ? & _)].
  - rewrite Bool.andb_true_iff, Bool.negb_true_iff, Bool.orb_false_iff,
      !Ascii.eqb_neq. split.
    + intros [[? ?] ?]. by exists y, s.
    + by intros (w & s' & [= -> ->] & ? & ? & ?).
Qed.

Lemma String_search_from_found (i : Z) (re : list re_item) (s : list ascii) :
  0 ≤ i →
  String_search_from i re s ≠ -1
  ↔ ∃ pre suf, s = pre ++ suf ∧ re_match_to_end re suf = true.
Proof.
  revert i. induction s as [|x s IH]; intros i Hi; cbn [String_search_from].
  - destruct (re_match_to_end re []) eqn:Hm.
    + split; [|lia]. intros _. by exists [], [].
    + split; [done|]. intros (pre & suf & Heq & Hs).
      symmetry in Heq. apply app_eq_nil in Heq as [_ ->]. congruence.
  - destruct (re_match_to_end re (x :: s)) eqn:Hm.
    + split; [|lia]. intros _. by exists [], (x :: s).
    + rewrite IH by lia. split.
      * intros (pre & suf & -> & Hs). by exists (x :: pre), suf.
      * intros ([|y pre] & suf & Heq & Hs); cbn in Heq.
        -- subst suf. congruence.
        -- injection Heq as -> ->. by exists pre, suf.
Qed.

(** The test of the hook on one URL is the decomposition [url_targets]
    asks for. *)
Lemma search_competition_re (url : string) (c : competition) :
  String_search url (competition_re c) ≠ -1 ↔ url_targets url c.
Proof.
  unfold String_search, url_targets, competition_re, re_lits.
  rewrite String_search_from_found by lia. split.
  - intros (pre & suf & Hurl & Hm).
    apply re_match_to_end_lits in Hm as (s1 & -> & Hm).
    apply re_match_to_end_any in Hm as (w & s2 & -> & Hw1 & Hw2 & Hm).
    apply re_match_to_end_lits in Hm as (s3 & -> & Hm).
    apply (re_match_to_end_lits ["?"%char]) in Hm as (s4 & -> & Hm).
    apply re_match_to_end_lits in Hm as (s5 & -> & Hm).
    rewrite <- (app_nil_r (map Lit _)) in Hm.
    apply re_match_to_end_lits in Hm as (s6 & -> & Hm).
    apply re_match_to_end_nil in Hm as ->.
    exists pre, w. rewrite Hurl, app_nil_r. done.
  - intros (pre & w & Hurl & Hw1 & Hw2).
    eexists pre, _. split; [exact Hurl|].
    apply re_match_to_end_lits. eexists. split; [done|].
    apply re_match_to_end_any. eexists _, _. split; [done|]. split; [done|].
    split; [done|].
    apply (re_match_to_end_lits (list_ascii_of_string "ru/g/")). eexists.
    split; [done|].
    apply (re_match_to_end_lits ["?"%char]). eexists. split; [done|].
    apply (re_match_to_end_lits (list_ascii_of_string "gmid=")). eexists.
    split; [done|].
    rewrite <- (app_nil_r (map Lit _)).
    apply re_match_to_end_lits. exists []. by rewrite app_nil_r.
Qed.

Lemma list_ascii_of_string_app (a b : string) :
  list_ascii_of_string (a +:+ b) = list_ascii_of_string a ++ list_ascii_of_string b.
Proof.
  induction a as [|x a IH]; [done|].
  change (String x a +:+ b) with (String x (a +:+ b)).
  cbn [list_ascii_of_string]. by rewrite IH.
Qed.

(** The page [onclick] opens is one the pre-display hook recognises. *)
Lemma competition_url_targets (c : competition) :
  url_targets (competition_url c) c.
Proof.
  unfold url_targets, competition_url. rewrite list_ascii_of_string_app.
  exists (list_ascii_of_string "http://"), "."%char.
  split; [done|]. split; discriminate.
Qed.

Section Before.

Variable getResourceUrl : string → string.

Lemma found_viewing (tabs : list tab) (c : competition) :
  existsb (λ t, _tab t && negb (String_search (getUrl t) (competition_re c) =? -1))
    tabs = true
  ↔ viewing tabs c.
Proof.
  rewrite existsb_exists. unfold viewing.
  split; intros (t & Hin & Ht); exists t.
  - apply Bool.andb_true_iff in Ht as [Htab Hs].
    apply Bool.negb_true_iff, Z.eqb_neq, search_competition_re in Hs.
    split; [by apply list_elem_of_In|done].
  - destruct Ht as [Htab Hs]. split; [by apply list_elem_of_In|].
    apply Bool.andb_true_iff. split; [done|].
    by apply Bool.negb_true_iff, Z.eqb_neq, search_competition_re.
Qed.

Lemma revoked_elem_of (cs : list host_call) (h : handle) :
  revoked cs h = true ↔ Revoke h ∈ cs.
Proof.
  unfold revoked. rewrite existsb_exists. split.
  - intros (x & Hin & Hx). destruct x; try done.
    apply Nat.eqb_eq in Hx as ->. by apply list_elem_of_In.
  - intros Hin. exists (Revoke h). split; [by apply list_elem_of_In|].
    apply Nat.eqb_refl.
Qed.

(** C9. The pre-display hook always resolves; it resolves with true exactly
    when no open tab shows the competition; the sound is played exactly when
    the audio setting is on and no open tab shows the competition, so that
    with such a tab nothing is played whatever the setting; the hook calls
    nothing else, in particular nothing on the notification, and nothing
    else in the state changes.  In the display step of the primitive, a
    notification that has not been revoked is displayed once the hook has
    resolved, whatever the hook resolved with; one that has been revoked is
    not, and its hook is not run. *)
Theorem before_resolves (st : state) (c : competition) (tabs : list tab) :
  ∃ b st',
    notification_before getResourceUrl c tabs st = Ok b st'
    ∧ (b = true ↔ ¬ viewing tabs c)
    ∧ calls st'
      = calls st ++ (if audio st && b
                     then [AudioPlay (getResourceUrl "res/competition.ogg")]
                     else [])
    ∧ (AudioPlay (getResourceUrl "res/competition.ogg") ∈ drop (length (calls st)) (calls st')
       ↔ audio st = true ∧ ¬ viewing tabs c)
    ∧ (viewing tabs c → st' = st)
    ∧ st' = set_host (next_handle st) (calls st') st
    ∧ (∀ h, Revoke h ∉ calls st →
            DeferredNotification_display getResourceUrl c h tabs st = Ok true st')
    ∧ (∀ h, Revoke h ∈ calls st →
            DeferredNotification_display getResourceUrl c h tabs st = Ok false st).
Proof.
  pose proof (found_viewing tabs c) as Hf.
  assert (∀ b st',
            notification_before getResourceUrl c tabs st = Ok b st' →
            (∀ h, Revoke h ∉ calls st →
                  DeferredNotification_display getResourceUrl c h tabs st = Ok true st')
            ∧ (∀ h, Revoke h ∈ calls st →
                    DeferredNotification_display getResourceUrl c h tabs st
                    = Ok false st)) as Hdisplay.
  { intros b st' Hrun. split; intros h Hh.
    - unfold DeferredNotification_display. unfold bind at 1. unfold get at 1.
      destruct (revoked (calls st) h) eqn:Hr; [by apply revoked_elem_of in Hr|].
      unfold bind. by rewrite Hrun.
    - unfold DeferredNotification_display. unfold bind at 1. unfold get at 1.
      apply revoked_elem_of in Hh. by rewrite Hh. }
  revert Hdisplay.
  unfold notification_before, bind, get.
  destruct (existsb _ tabs) eqn:Hfound; cbn [negb andb when ret]; intros Hdisplay.
  - assert (viewing tabs c) as Hv by by apply Hf.
    exists false, st. rewrite Bool.andb_false_r, app_nil_r, drop_all.
    split; [done|]. split; [by split|]. split; [done|].
    split; [|split; [done|split; [by destruct st|by apply (Hdisplay false)]]].
    split; [by intros ?%elem_of_nil|by intros [_ ?]].
  - assert (¬ viewing tabs c) as Hv by (intros H; apply Hf in H; congruence).
    destruct (audio st) eqn:Ha; cbn in Hdisplay |- *.
    + eexists true, _. split; [done|]. cbn. split; [by split|]. split; [done|].
      rewrite drop_app_length.
      split; [split; [done|intros _; apply list_elem_of_here]|].
      split; [done|]. split; [by destruct st|by apply (Hdisplay true)].
    + exists true, st. rewrite app_nil_r, drop_all.
      split; [done|]. split; [by split|]. split; [done|].
      split; [|split; [done|split; [by destruct st|by apply (Hdisplay true)]]].
      split; [by intros ?%elem_of_nil|by intros [? _]].
Qed.

End Before.

(** ** Enumeration of the table *)

Lemma elem_of_keys (m : gmap N competition) (k : N) :
  k ∈ keys m ↔ is_Some (m !! k).
Proof.
  unfold keys. rewrite merge_sort_Permutation, list_elem_of_fmap. split.
  - intros ([k' c] & -> & Hin). apply elem_of_map_to_list in Hin. by exists c.
  - intros [c Hc]. exists (k, c). split; [done|by apply elem_of_map_to_list].
Qed.

Lemma NoDup_keys (m : gmap N competition) : NoDup (keys m).
Proof.
  unfold keys. rewrite merge_sort_Permutation. apply NoDup_fst_map_to_list.
Qed.

(** The names come in ascending order. *)
Lemma Sorted_keys (m : gmap N competition) : Sorted N.le (keys m).
Proof. unfold keys. apply Sorted_merge_sort. intros x y. lia. Qed.

(** ** State bookkeeping *)

Lemma state_eq (s1 s2 : state) :
  rates s1 = rates s2 → delay s1 = delay s2 → displayTime s1 = displayTime s2 →
  audio s1 = audio s2 → _hash s1 = _hash s2 →
  _timeCorrection s1 = _timeCorrection s2 → now s1 = now s2 →
  next_handle s1 = next_handle s2 → calls s1 = calls s2 → s1 = s2.
Proof. destruct s1, s2; cbn; intros; by subst. Qed.

Ltac state_eq := apply state_eq; cbn; try done.

Lemma revocations_delete (m : gmap N competition) (k : N) (ks : list N) :
  k ∉ ks → revocations (delete k m) ks = revocations m ks.
Proof.
  unfold revocations. induction ks as [|k' ks IH]; intros Hk; [done|].
  apply not_elem_of_cons in Hk as [Hne Hk]. cbn.
  rewrite lookup_delete_ne by done. f_equal. by apply IH.
Qed.

Lemma elem_of_revocations (m : gmap N competition) (ks : list N) (x : host_call) :
  x ∈ revocations m ks
  ↔ ∃ k c h, k ∈ ks ∧ m !! k = Some c ∧ notification c = Some h ∧ x = Revoke h.
Proof.
  unfold revocations. rewrite list_elem_of_bind. split.
  - intros (k & Hx & Hk). destruct (m !! k) as [c|] eqn:Hc; cbn in Hx.
    + unfold revocation in Hx. destruct (notification c) as [h|] eqn:Hh.
      * apply list_elem_of_singleton in Hx. by exists k, c, h.
      * by apply elem_of_nil in Hx.
    + by apply elem_of_nil in Hx.
  - intros (k & c & h & Hk & Hc & Hh & ->). exists k. split; [|done].
    rewrite Hc. cbn. unfold revocation. rewrite Hh. apply list_elem_of_here.
Qed.

(** ** Full clear *)

Lemma clearAll_body (st : state) (id : N) (c : competition) :
  _hash st !! id = Some c →
  _clearAll_each id st
  = Ok tt (set_hash (delete id (_hash st))
             (set_host (next_handle st) (calls st ++ revocation c) st)).
Proof.
  intros Hc. unfold _clearAll_each, hash_get, bind, get. rewrite Hc.
  unfold ret at 1. unfold revocation, host, modify, ret. destruct (notification c) as [h|].
  - done.
  - f_equal. state_eq. by rewrite app_nil_r.
Qed.

Lemma clearAll_loop (ks : list N) (st : state) :
  NoDup ks →
  for_in_keys ks _clearAll_each st
  = Ok tt (set_hash (foldr delete (_hash st) ks)
             (set_host (next_handle st)
                (calls st ++ revocations (_hash st) ks) st)).
Proof.
  revert st. induction ks as [|k ks IH]; intros st Hnd.
  - cbn. f_equal. state_eq. by rewrite app_nil_r.
  - apply NoDup_cons in Hnd as [Hk Hnd].
    cbn [for_in_keys]. unfold bind at 1 2. unfold get at 1.
    destruct (_hash st !! k) as [c|] eqn:Hc.
    + rewrite (clearAll_body st k c Hc), IH by done. f_equal. state_eq.
      * symmetry. apply delete_foldr_delete.
      * rewrite revocations_delete by done.
        unfold revocations. rewrite Hc. cbn. by rewrite <- app_assoc.
    + unfold ret at 1. rewrite IH by done. f_equal. state_eq.
      * rewrite delete_foldr_delete. by rewrite (delete_id _ _ Hc).
      * unfold revocations. by rewrite Hc.
Qed.

Lemma foldr_delete_keys (m : gmap N competition) : foldr delete m (keys m) = ∅.
Proof.
  apply map_eq. intros k. rewrite lookup_empty.
  destruct (m !! k) as [c|] eqn:Hc.
  - apply lookup_foldr_delete, elem_of_keys. by exists c.
  - rewrite lookup_foldr_delete_not_elem_of; [done|].
    rewrite elem_of_keys, Hc. by intros [? ?].
Qed.

Lemma clearAll_result (st : state) :
  _clearAll st
  = Ok tt (set_hash ∅
             (set_host (next_handle st)
                (calls st ++ revocations (_hash st) (keys (_hash st))) st)).
Proof.
  unfold _clearAll, for_in_hash. unfold bind at 1. unfold get at 1.
  rewrite clearAll_loop by apply NoDup_keys.
  by rewrite foldr_delete_keys.
Qed.

Section Teardown.

Variable MutableModule_teardown : M unit.

(** C8, as the module has it.  Once the teardown of the base has returned,
    leaving the state [st], [teardown] is the full clear of [st]: it returns
    normally with an empty table; what it calls is [revoke()] on the
    notification of every record that has one, and nothing else; the
    configuration is left as it was.  The notifications armed afterwards
    are exactly those that were armed and that no record of the table
    referred to; so when every armed notification is referred to by a
    record, none stays armed. *)
Theorem teardown_clears (st0 st : state) :
  MutableModule_teardown st0 = Ok tt st →
  ∃ st',
    teardown MutableModule_teardown st0 = Ok tt st'
    ∧ _clearAll st = Ok tt st'
    ∧ _hash st' = ∅
    ∧ (∀ k c h, _hash st !! k = Some c → notification c = Some h →
       Revoke h ∈ calls st')
    ∧ calls st' = calls st ++ revocations (_hash st) (keys (_hash st))
    ∧ st' = set_hash ∅ (set_host (next_handle st) (calls st') st)
    ∧ (∀ h g, live_for (calls st') h g
              ↔ live_for (calls st) h g
                ∧ ¬ ∃ k c, _hash st !! k = Some c ∧ notification c = Some h)
    ∧ ((∀ h g, live_for (calls st) h g →
               ∃ k c, _hash st !! k = Some c ∧ notification c = Some h) →
       ∀ h g, ¬ live_for (calls st') h g).
Proof.
  intros Hbase.
  assert (∀ k c h, _hash st !! k = Some c → notification c = Some h →
          Revoke h ∈ revocations (_hash st) (keys (_hash st))) as Hrev.
  { intros k c h Hc Hh. apply elem_of_revocations. exists k, c, h.
    split; [|done]. apply elem_of_keys. by exists c. }
  assert (∀ h g,
            live_for (calls st ++ revocations (_hash st) (keys (_hash st))) h g
            ↔ live_for (calls st) h g
              ∧ ¬ ∃ k c, _hash st !! k = Some c ∧ notification c = Some h)
    as Hlive.
  { intros h g. unfold live_for. setoid_rewrite elem_of_app. split.
    - intros [(n & [Hn|Hn] & Hg) Hno].
      + split; [split; [by exists n|tauto]|].
        intros (k & c & Hc & Hh). apply Hno. right. by apply (Hrev k c).
      + apply elem_of_revocations in Hn as (? & ? & ? & _ & _ & _ & ?). done.
    - intros [[(n & Hn & Hg) Hno] Hfree]. split; [exists n; tauto|].
      intros [?|Hr]; [done|].
      apply elem_of_revocations in Hr as (k & c & h' & _ & Hc & Hh & [= <-]).
      apply Hfree. by exists k, c. }
  eexists. split; [|split; [apply clearAll_result|]].
  - unfold teardown, bind. rewrite Hbase. apply clearAll_result.
  - cbn. split; [done|]. split; [|split; [done|split; [done|split; [done|]]]].
    + intros k c h Hc Hh. apply elem_of_app. right. by apply (Hrev k c).
    + intros Hown h g [Hl Hfree]%Hlive. apply Hfree. by apply (Hown h g).
Qed.

End Teardown.

(** C8 on the sample with two armed notifications, each referred to by a
    record. *)
Lemma teardown_clears_witness :
  ∃ st',
    teardown sample_base_teardown sample_two = Ok tt st'
    ∧ _clearAll sample_two = Ok tt st'
    ∧ _hash st' = ∅
    ∧ (∀ k c h, _hash sample_two !! k = Some c → notification c = Some h →
       Revoke h ∈ calls st')
    ∧ calls st'
      = calls sample_two ++ revocations (_hash sample_two) (keys (_hash sample_two))
    ∧ st' = set_hash ∅ (set_host (next_handle sample_two) (calls st') sample_two)
    ∧ (∀ h g, live_for (calls st') h g
              ↔ live_for (calls sample_two) h g
                ∧ ¬ ∃ k c, _hash sample_two !! k = Some c ∧ notification c = Some h)
    ∧ ((∀ h g, live_for (calls sample_two) h g →
               ∃ k c, _hash sample_two !! k = Some c ∧ notification c = Some h) →
       ∀ h g, ¬ live_for (calls st') h g).
Proof.
  apply (teardown_clears sample_base_teardown sample_two sample_two).
  reflexivity.
Defined.

(** Both notifications of the sample are revoked, in the order of the ids. *)
Example teardown_sample_two :
  ∃ st', teardown sample_base_teardown sample_two = Ok tt st'
         ∧ _hash st' = ∅
         ∧ calls st' = calls sample_two ++ [Revoke 0%nat; Revoke 1%nat].
Proof. eexists. split; [vm_compute; reflexivity|]. split; reflexivity. Qed.

(** C8 as stated fails: in the state [_clearStarted] leaves from
    [sample_due], the notification 0 is armed; [teardown] returns with an
    empty table, calls nothing, and the notification is armed still. *)
Lemma teardown_keeps_unreferenced_armed :
  _clearStarted sample_Date_getTime sample_due = Ok tt sample_pruned
  ∧ live_for (calls sample_pruned) 0%nat 3
  ∧ ¬ (∀ st', teardown sample_base_teardown sample_pruned = Ok tt st' →
              ∀ h g, live_for (calls sample_pruned) h g → Revoke h ∈ calls st')
  ∧ ∃ st', teardown sample_base_teardown sample_pruned = Ok tt st'
           ∧ _hash st' = ∅
           ∧ calls st' = calls sample_pruned
           ∧ live_for (calls st') 0%nat 3.
Proof.
  assert (live_for (calls sample_pruned) 0%nat 3) as Hlive.
  { split.
    - eexists. split; [apply list_elem_of_here|reflexivity].
    - intros Hin. unfold sample_pruned, sample_due in Hin. cbn [calls set_hash] in Hin.
      repeat (apply elem_of_cons in Hin as [Hin|Hin]); try discriminate.
      by apply elem_of_nil in Hin. }
  assert (teardown sample_base_teardown sample_pruned = Ok tt sample_pruned) as Hrun
    by (vm_compute; reflexivity).
  split; [vm_compute; reflexivity|]. split; [exact Hlive|]. split.
  - intros H. specialize (H sample_pruned Hrun 0%nat 3 Hlive).
    destruct Hlive as [_ Hno]. by apply Hno.
  - exists sample_pruned. split; [exact Hrun|]. split; [reflexivity|].
    split; [reflexivity|exact Hlive].
Qed.

(** ** Selective prune *)

Section Prune.

Variable Date_getTime : string → number.

Lemma set_hash_set_hash (m1 m2 : gmap N competition) (st : state) :
  set_hash m2 (set_hash m1 st) = set_hash m2 st.
Proof. reflexivity. Qed.

Lemma set_hash_id (st : state) : set_hash (_hash st) st = st.
Proof. by destruct st. Qed.

(** With the correction established, the remaining time of a string or a
    number is 0 exactly when the record has lapsed. *)
Lemma getRemainingTime_zero_lapsed (st : state) (c : competition) (tc : number) :
  _timeCorrection st = Num tc →
  JS.typeof (beginTime c) = "string" ∨ JS.typeof (beginTime c) = "number" →
  ∃ r, getRemainingTime Date_getTime (beginTime c) st = Ok r st
       ∧ JS.strict_equals (Num r) (Num (Int 0)) = lapsed Date_getTime st c.
Proof.
  intros Htc Hty. rewrite getRemainingTime_unfold. unfold lapsed.
  destruct (beginTimestamp Date_getTime (beginTime c)) as [ts|] eqn:Hts.
  - rewrite Htc. cbn zeta. eexists. split; [done|].
    destruct (JS.sub ts (JS.add (Int (now st)) tc)) as [|d]; cbn; [done|].
    destruct (Z.ltb_spec 0 d) as [Hd|Hd]; cbn.
    + pose proof (Math_round_1000_zero d) as Hz.
      destruct (Z.eqb_spec (JS.Math_round (d # 1000)) 0) as [H0|H0],
               (Z.leb_spec 500 d); cbn; try done; lia.
    + destruct (Z.leb_spec 500 d); cbn; [lia|done].
  - apply beginTimestamp_typeof in Hts as [? ?]. by destruct Hty.
Qed.

Lemma lapsed_Null (st : state) (c : competition) :
  beginTime c = Null → lapsed Date_getTime st c = false.
Proof. intros H. unfold lapsed. by rewrite H. Qed.

Lemma clearStarted_body (st : state) (id : N) (c : competition) (tc : number) :
  _timeCorrection st = Num tc →
  start_time_ok c →
  _hash st !! id = Some c →
  _clearStarted_each Date_getTime id st
  = Ok tt (set_hash (if lapsed Date_getTime st c
                     then delete id (_hash st) else _hash st) st).
Proof.
  intros Htc Hok Hc. unfold _clearStarted_each, hash_get, bind, get.
  rewrite Hc. unfold ret at 1. cbn zeta. destruct Hok as [Hnull|Hty].
  - rewrite (lapsed_Null st c Hnull), Hnull. cbn. by rewrite set_hash_id.
  - assert (JS.strict_equals (beginTime c) Null = false) as ->.
    { destruct (beginTime c) as [| | |[|]|]; cbn in Hty |- *; try done;
        by destruct Hty. }
    cbn [negb].
    destruct (getRemainingTime_zero_lapsed st c tc Htc Hty) as (r & -> & ->).
    destruct (lapsed Date_getTime st c); cbn; [done|].
    by rewrite set_hash_id.
Qed.

Lemma clearStarted_loop (ks : list N) (st : state) (tc : number) :
  _timeCorrection st = Num tc →
  (∀ k c, _hash st !! k = Some c → start_time_ok c) →
  ∃ m',
    for_in_keys ks (_clearStarted_each Date_getTime) st = Ok tt (set_hash m' st)
    ∧ ∀ k, m' !! k =
           match _hash st !! k with
           | Some c =>
               if bool_decide (k ∈ ks) && lapsed Date_getTime st c
               then None else Some c
           | None => None
           end.
Proof.
  revert st. induction ks as [|k ks IH]; intros st Htc Hok.
  - exists (_hash st). cbn. rewrite set_hash_id. split; [done|].
    intros k. by destruct (_hash st !! k).
  - cbn [for_in_keys]. unfold bind at 1 2. unfold get at 1.
    destruct (_hash st !! k) as [c|] eqn:Hc.
    + rewrite (clearStarted_body st k c tc Htc (Hok k c Hc) Hc).
      set (m1 := if lapsed Date_getTime st c then delete k (_hash st) else _hash st).
      destruct (IH (set_hash m1 st)) as (m' & Hrun & Hm'); [done| |].
      { cbn. intros j cj Hj. apply (Hok j). subst m1.
        destruct (lapsed Date_getTime st c); [|done].
        by apply lookup_delete_Some in Hj as [_ ?]. }
      exists m'. split; [by rewrite Hrun|].
      intros j. rewrite Hm'. cbn [_hash set_hash].
      destruct (decide (j = k)) as [->|Hjk].
      * rewrite Hc. subst m1.
        rewrite (bool_decide_eq_true_2 (k ∈ k :: ks)) by apply list_elem_of_here.
        cbn [andb].
        destruct (lapsed Date_getTime st c) eqn:Hl.
        -- by rewrite lookup_delete_eq.
        -- rewrite Hc. unfold lapsed in Hl |- *. cbn [_timeCorrection now set_hash].
           by rewrite Hl, Bool.andb_false_r.
      * assert (m1 !! j = _hash st !! j) as ->.
        { subst m1. destruct (lapsed Date_getTime st c); [|done].
          by apply lookup_delete_ne. }
        destruct (_hash st !! j) as [cj|]; [|done].
        replace (bool_decide (j ∈ k :: ks)) with (bool_decide (j ∈ ks)); [done|].
        apply bool_decide_ext. rewrite elem_of_cons. split; [by right|by intros [?|?]].
    + unfold ret at 1. destruct (IH st Htc Hok) as (m' & Hrun & Hm').
      exists m'. split; [done|]. intros j. rewrite Hm'.
      destruct (decide (j = k)) as [->|Hjk]; [by rewrite Hc|].
      destruct (_hash st !! j) as [cj|]; [|done].
      replace (bool_decide (j ∈ k :: ks)) with (bool_decide (j ∈ ks)); [done|].
      apply bool_decide_ext. rewrite elem_of_cons. split; [by right|by intros [?|?]].
Qed.

(** C4, as the module has it.  With the correction established and every
    start time null, a string or a number, [_clearStarted] returns normally;
    it removes exactly the records that have lapsed, that is, those with a
    non-null start time whose remaining time rounds to 0: for a start
    instant [ts] and a correction [t] in milliseconds the record is removed
    exactly when [ts - (now + t) < 500], so a record due 500 ms or more
    after the corrected clock stays as it is; a record whose start time is
    null stays; nothing but the table changes, in particular nothing is
    called on the host and no notification is revoked. *)
Theorem clearStarted_prunes (st : state) (tc : number) :
  _timeCorrection st = Num tc →
  (∀ k c, _hash st !! k = Some c → start_time_ok c) →
  ∃ st',
    _clearStarted Date_getTime st = Ok tt st'
    ∧ st' = set_hash (filter (λ kc, lapsed Date_getTime st kc.2 = false) (_hash st)) st
    ∧ calls st' = calls st
    ∧ (∀ k c, _hash st !! k = Some c →
       (_hash st' !! k = None ↔ lapsed Date_getTime st c = true)
       ∧ (lapsed Date_getTime st c = false → _hash st' !! k = Some c)
       ∧ (beginTime c = Null → _hash st' !! k = Some c)
       ∧ (∀ ts t, beginTimestamp Date_getTime (beginTime c) = Some (Int ts) →
          tc = Int t →
          (_hash st' !! k = None ↔ ts - (now st + t) < 500))).
Proof.
  intros Htc Hok.
  destruct (clearStarted_loop (keys (_hash st)) st tc Htc Hok)
    as (m' & Hrun & Hm').
  assert (m' = filter (λ kc, lapsed Date_getTime st kc.2 = false) (_hash st)) as ->.
  { apply map_eq. intros k. rewrite Hm'.
    destruct (_hash st !! k) as [c|] eqn:Hc.
    - rewrite (bool_decide_eq_true_2 (k ∈ keys (_hash st)))
        by (apply elem_of_keys; by exists c).
      cbn [andb]. destruct (lapsed Date_getTime st c) eqn:Hl; symmetry.
      + apply map_lookup_filter_None. right. intros c' Hc'. cbn. congruence.
      + by apply map_lookup_filter_Some.
    - symmetry. apply map_lookup_filter_None. by left. }
  eexists. split; [exact Hrun|]. split; [done|]. split; [done|].
  intros k c Hc. cbn [_hash set_hash].
  assert (filter (λ kc, lapsed Date_getTime st kc.2 = false) (_hash st) !! k = None
          ↔ lapsed Date_getTime st c = true) as Hnone.
  { rewrite map_lookup_filter_None. split.
    - intros [H|H]; [congruence|]. specialize (H c Hc). cbn in H.
      by destruct (lapsed Date_getTime st c).
    - intros Hl. right. intros c' Hc'. cbn. congruence. }
  assert (lapsed Date_getTime st c = false →
          filter (λ kc, lapsed Date_getTime st kc.2 = false) (_hash st) !! k = Some c)
    as Hsome by (intros Hl; by apply map_lookup_filter_Some).
  split; [done|]. split; [done|]. split.
  - intros Hnull. apply Hsome. by apply lapsed_Null.
  - intros ts t Hts ->. rewrite Hnone. unfold lapsed. rewrite Hts, Htc. cbn.
    rewrite Bool.negb_true_iff, Z.leb_gt. done.
Qed.

End Prune.

(** C4 on the sample competition, due in 299750 ms: it stays. *)
Lemma clearStarted_prunes_witness :
  ∃ st',
    _clearStarted sample_Date_getTime sample_one = Ok tt st'
    ∧ st' = set_hash (filter (λ kc, lapsed sample_Date_getTime sample_one kc.2 = false)
                        (_hash sample_one)) sample_one
    ∧ calls st' = calls sample_one
    ∧ (∀ k c, _hash sample_one !! k = Some c →
       (_hash st' !! k = None ↔ lapsed sample_Date_getTime sample_one c = true)
       ∧ (lapsed sample_Date_getTime sample_one c = false → _hash st' !! k = Some c)
       ∧ (beginTime c = Null → _hash st' !! k = Some c)
       ∧ (∀ ts t, beginTimestamp sample_Date_getTime (beginTime c) = Some (Int ts) →
          Int 250 = Int t →
          (_hash st' !! k = None ↔ ts - (now sample_one + t) < 500))).
Proof.
  apply (clearStarted_prunes sample_Date_getTime sample_one (Int 250)).
  - reflexivity.
  - intros k c Hc. unfold sample_one in Hc. cbn [_hash] in Hc.
    apply lookup_singleton_Some in Hc as [_ <-].
    right. right. reflexivity.
Defined.

(** C4 as stated fails: the competition of [sample_soon] starts at
    10000 ms, after the corrected clock (9600 ms), and is removed all the
    same. *)
Lemma clearStarted_removes_before_start :
  _hash sample_soon !! 3%N = Some sample_c3
  ∧ beginTimestamp sample_Date_getTime (beginTime sample_c3) = Some (Int 10000)
  ∧ JS.add (Int (now sample_soon)) (Int 250) = Int 9600
  ∧ ¬ (10000 ≤ 9600)
  ∧ ∃ st', _clearStarted sample_Date_getTime sample_soon = Ok tt st'
           ∧ _hash st' !! 3%N = None.
Proof.
  split; [reflexivity|]. split; [reflexivity|]. split; [reflexivity|].
  split; [lia|]. eexists. split; [vm_compute; reflexivity|reflexivity].
Qed.

(** ** Reconciliation: the shape of one turn of the loop *)

Lemma for_in_keys_final (P : state → Prop) (body : N → M unit) (ks : list N) :
  (∀ k st, P st → is_Some (_hash st !! k) → P (final_state (body k st))) →
  ∀ st, P st → P (final_state (for_in_keys ks body st)).
Proof.
  intros Hbody. induction ks as [|k ks IH]; intros st HP; [done|].
  cbn [for_in_keys]. unfold bind at 1 2. unfold get at 1.
  destruct (_hash st !! k) as [c|] eqn:Hc.
  - specialize (Hbody k st HP). rewrite Hc in Hbody.
    specialize (Hbody (ltac:(by eexists))).
    destruct (body k st) as [[] st1|e st1]; cbn in Hbody; [by apply IH|done].
  - unfold ret at 1. by apply IH.
Qed.

Lemma same_config_refl (st : state) : same_config st st.
Proof. by repeat split. Qed.

Lemma same_config_trans (s1 s2 s3 : state) :
  same_config s1 s2 → same_config s2 s3 → same_config s1 s3.
Proof.
  unfold same_config. intros (?&?&?&?&?&?) (?&?&?&?&?&?).
  repeat split; congruence.
Qed.

Section Reconcile.

Variable Date_getTime : string → number.
Variable getResourceUrl : string → string.

Lemma getRemainingTime_same_config (bt : prim) (s1 s2 : state) (r : number) :
  same_config s1 s2 →
  getRemainingTime Date_getTime bt s1 = Ok r s1 →
  getRemainingTime Date_getTime bt s2 = Ok r s2.
Proof.
  intros (_&_&_&_&Htc&Hnow). rewrite !getRemainingTime_unfold, Htc, Hnow.
  destruct (beginTimestamp Date_getTime bt); [|done].
  destruct (_timeCorrection s1); try done. cbn zeta. by intros [= <-].
Qed.

(** What [_notify] leaves behind: the state as it was (nothing armed, or
    an exception), or a notification armed for the record. *)
Lemma notify_cases (st : state) (id : N) (c : competition) :
  _hash st !! id = Some c →
  final_state (_notify Date_getTime getResourceUrl id st) = st
  ∨ ∃ r n d,
      _notify Date_getTime getResourceUrl id st = Ok tt (armed_state st id n d)
      ∧ n_gmid n = c_id c
      ∧ getRemainingTime Date_getTime (beginTime c) st = Ok r st
      ∧ JS.gt (delay st) (Int 0) = true
      ∧ JS.gt r (Int 0) = true
      ∧ ∃ i, rates_indexOf (ratingValue c) st = Ok i st ∧ i ≠ -1.
Proof.
  intros Hc. rewrite (notify_unfold _ _ st id c Hc).
  destruct (getRemainingTime Date_getTime (beginTime c) st) as [r st1|e st1] eqn:Hr;
    [|by left].
  apply getRemainingTime_Ok_state in Hr as Hst. subst st1.
  destruct (JS.gt (delay st) (Int 0)) eqn:Hd; [|by left].
  destruct (JS.gt r (Int 0)) eqn:Hr0; [|by left]. cbn [andb].
  pose proof (rates_indexOf_state (ratingValue c) st) as Hs.
  destruct (rates_indexOf (ratingValue c) st) as [i st1|e st1] eqn:Hi;
    cbn in Hs; subst; [|by left].
  destruct (negb (Z.lnot i =? 0)) eqn:Hneg; [|by left].
  apply not_lnot_index in Hneg.
  destruct (notify_arming Date_getTime getResourceUrl st id c r i Hc Hr Hd Hr0 Hi Hneg)
    as (n & d & Hn & Hg & _).
  rewrite (notify_unfold _ _ st id c Hc), Hr, Hd, Hr0, Hi in Hn. cbn [andb] in Hn.
  apply not_lnot_index in Hneg as Hneg'. rewrite Hneg' in Hn.
  right. exists r, n, d. repeat (split; [done|]). by exists i.
Qed.

(** With the correction established, a string or a number as start time
    and a rates value that has [indexOf], [_notify] does not throw. *)
Lemma notify_returns (st : state) (id : N) (c : competition) (tc : number) :
  _hash st !! id = Some c →
  _timeCorrection st = Num tc →
  JS.typeof (beginTime c) = "string" ∨ JS.typeof (beginTime c) = "number" →
  (∃ l, rates st = Arr l) →
  ∃ st', _notify Date_getTime getResourceUrl id st = Ok tt st'.
Proof.
  intros Hc Htc Hty [l Hl]. rewrite (notify_unfold _ _ st id c Hc).
  destruct (getRemainingTime_zero_lapsed Date_getTime st c tc Htc Hty)
    as (r & -> & _).
  destruct (JS.gt (delay st) (Int 0) && JS.gt r (Int 0)); [|by eexists].
  rewrite (rates_indexOf_Arr st l _ Hl).
  destruct (negb _); [|by eexists].
  destruct (createNotification_shape getResourceUrl st c r) as (n & d & -> & _).
  by eexists.
Qed.

Lemma updateNotifications_each_unfold (st : state) (id : N) (c : competition) :
  _hash st !! id = Some c →
  _updateNotifications_each Date_getTime getResourceUrl id st
  = if negb (JS.strict_equals (beginTime c) Null)
    then _notify Date_getTime getResourceUrl id (revoked_state st c)
    else Ok tt (revoked_state st c).
Proof.
  intros Hc. unfold _updateNotifications_each, hash_get, bind, get.
  rewrite Hc. unfold ret at 1. unfold revoked_state, revocation.
  destruct (notification c) as [h|]; unfold host, modify, ret.
  - by destruct (negb _).
  - assert (set_host (next_handle st) (calls st ++ []) st = st) as ->
      by (state_eq; by rewrite app_nil_r).
    by destruct (negb _).
Qed.

(** What one turn of the loop leaves behind: the record's notification
    revoked, and then possibly a new one armed. *)
Lemma updateNotifications_each_cases (st : state) (id : N) (c : competition) :
  _hash st !! id = Some c →
  final_state (_updateNotifications_each Date_getTime getResourceUrl id st)
  = revoked_state st c
  ∨ ∃ r n d,
      _updateNotifications_each Date_getTime getResourceUrl id st
      = Ok tt (armed_state (revoked_state st c) id n d)
      ∧ n_gmid n = c_id c
      ∧ beginTime c ≠ Null
      ∧ getRemainingTime Date_getTime (beginTime c) st = Ok r st
      ∧ JS.gt (delay st) (Int 0) = true
      ∧ JS.gt r (Int 0) = true.
Proof.
  intros Hc. rewrite (updateNotifications_each_unfold st id c Hc).
  destruct (JS.strict_equals (beginTime c) Null) eqn:Hnull; cbn [negb]; [by left|].
  destruct (notify_cases (revoked_state st c) id c Hc)
    as [H|(r & n & d & Hn & Hg & Hr & Hd & Hr0 & _)]; [by left|].
  right. exists r, n, d. split; [done|]. split; [done|].
  split; [intros Hb; by rewrite Hb in Hnull|]. split; [|done].
  eapply (getRemainingTime_same_config _ (revoked_state st c) st); [|done].
  by repeat split.
Qed.

Lemma updateNotifications_each_frame (st : state) (id : N) :
  is_Some (_hash st !! id) →
  same_config st
    (final_state (_updateNotifications_each Date_getTime getResourceUrl id st))
  ∧ calls st `prefix_of`
      calls (final_state (_updateNotifications_each Date_getTime getResourceUrl id st)).
Proof.
  intros [c Hc].
  destruct (updateNotifications_each_cases st id c Hc)
    as [->|(r & n & d & -> & _)]; cbn [final_state].
  - split; [by repeat split|]. by eexists.
  - split; [by repeat split|]. rewrite armed_state_calls. cbn.
    rewrite <- app_assoc. by eexists.
Qed.

Lemma updateNotifications_frame (st : state) :
  same_config st (final_state (_updateNotifications Date_getTime getResourceUrl st))
  ∧ calls st `prefix_of`
      calls (final_state (_updateNotifications Date_getTime getResourceUrl st)).
Proof.
  unfold _updateNotifications, for_in_hash. unfold bind at 1. unfold get at 1.
  apply (for_in_keys_final
           (λ st', same_config st st' ∧ calls st `prefix_of` calls st')).
  - intros k st1 [Hcfg Hpre] Hk.
    destruct (updateNotifications_each_frame st1 k Hk) as [Hcfg' Hpre'].
    split; [by eapply same_config_trans|by etrans].
  - split; [apply same_config_refl|done].
Qed.

Lemma setParams_unfold (param : params) (st : state) :
  setParams Date_getTime getResourceUrl param st
  = _updateNotifications Date_getTime getResourceUrl
      (set_host (next_handle st)
         (calls st ++ persisted (assign_params param st))
         (assign_params param st)).
Proof.
  unfold setParams, bind, modify, get, host. cbn.
  f_equal. state_eq. by rewrite <- !app_assoc.
Qed.

(** C10, as the module has it.  Whatever the outcome of the reconciliation
    that follows: [delay] and [displayTime] take the value supplied when it
    is a number that is not negative, and keep their value otherwise;
    [rates] takes the value supplied when it is truthy and keeps its value
    otherwise; [audio] keeps its value when the value supplied is undefined
    or null, and otherwise becomes the value supplied coerced to a boolean;
    the correction and the clock are not touched; and the first four calls
    made are the four [setItem] of the resulting values. *)
Theorem setParams_frame (st : state) (param : params) :
  let st' := final_state (setParams Date_getTime getResourceUrl param st) in
  ((∀ n, valid_seconds (p_delay param) n → delay st' = n)
   ∧ ((∀ n, ¬ valid_seconds (p_delay param) n) → delay st' = delay st))
  ∧ ((∀ n, valid_seconds (p_displayTime param) n → displayTime st' = n)
     ∧ ((∀ n, ¬ valid_seconds (p_displayTime param) n) →
        displayTime st' = displayTime st))
  ∧ ((JS.truthy (p_rates param) = true → rates st' = p_rates param)
     ∧ (JS.truthy (p_rates param) = false → rates st' = rates st))
  ∧ ((p_audio param = Undefined ∨ p_audio param = Null → audio st' = audio st)
     ∧ (p_audio param ≠ Undefined → p_audio param ≠ Null →
        audio st' = JS.truthy (p_audio param)))
  ∧ _timeCorrection st' = _timeCorrection st
  ∧ now st' = now st
  ∧ calls st ++ persisted st' `prefix_of` calls st'.
Proof.
  intros st'. subst st'. rewrite setParams_unfold.
  set (st1 := set_host _ _ _).
  destruct (updateNotifications_frame st1) as [(Hr & Hd & Ht & Ha & Htc & Hnow) Hpre].
  set (st' := final_state _) in *.
  assert (persisted st' = persisted (assign_params param st)) as Hp
    by (unfold persisted; by rewrite Hr, Hd, Ht, Ha).
  rewrite Hr, Hd, Ht, Ha, Htc, Hnow, Hp.
  split; [|split; [|split; [|split; [|split; [done|split; [done|exact Hpre]]]]]];
    cbn; unfold valid_seconds.
  - split.
    + intros n [-> Hn]. by rewrite Hn.
    + intros Hno. destruct (p_delay param) as [[| | |n|]|]; try done.
      destruct (JS.ge n (Int 0)) eqn:Hn; [|done]. by destruct (Hno n).
  - split.
    + intros n [-> Hn]. by rewrite Hn.
    + intros Hno. destruct (p_displayTime param) as [[| | |n|]|]; try done.
      destruct (JS.ge n (Int 0)) eqn:Hn; [|done]. by destruct (Hno n).
  - split; by intros ->.
  - split.
    + by intros [->| ->].
    + intros H1 H2. by destruct (p_audio param) as [[| | | |]|].
Qed.

End Reconcile.

(** C10 as stated fails on [audio: null]: the property is supplied, and the
    setting is not the value coerced to a boolean (false) but stays on. *)
Lemma setParams_audio_null_kept :
  p_audio sample_audio_null ≠ Prim Undefined
  ∧ audio (final_state (setParams sample_Date_getTime sample_getResourceUrl
                          sample_audio_null sample_loud))
    ≠ JS.truthy (p_audio sample_audio_null).
Proof. split; [discriminate|vm_compute; discriminate]. Qed.

(** ** Armed notifications along the trace of calls *)

Lemma live_for_snoc_Revoke (cs : list host_call) (h0 h : handle) (g : Z) :
  live_for (cs ++ [Revoke h0]) h g ↔ live_for cs h g ∧ h ≠ h0.
Proof.
  unfold live_for. setoid_rewrite elem_of_app.
  setoid_rewrite list_elem_of_singleton. split.
  - intros [(n & [Hn|Hn] & Hg) Hrev]; [|done].
    split; [split; [by exists n|]|]; intros ?; apply Hrev; [by left|].
    right. by subst.
  - intros [[(n & Hn & Hg) Hrev] Hne]. split; [exists n; split; [by left|done]|].
    intros [?|[= ?]]; [done|]. by subst.
Qed.

Lemma live_for_snoc_New (cs : list host_call) (h0 : handle)
    (n0 : DeferredNotification) (h : handle) (g : Z) :
  live_for (cs ++ [NewNotification h0 n0]) h g
  ↔ live_for cs h g ∨ (h = h0 ∧ n_gmid n0 = g ∧ Revoke h ∉ cs).
Proof.
  unfold live_for. setoid_rewrite elem_of_app.
  setoid_rewrite list_elem_of_singleton. split.
  - intros [(n & [Hn|[= -> ->]] & Hg) Hrev].
    + left. split; [by exists n|]. intros ?. apply Hrev. by left.
    + right. split; [done|]. split; [done|]. intros ?. apply Hrev. by left.
  - intros [[(n & Hn & Hg) Hrev]|(-> & Hg & Hrev)].
    + split; [exists n; split; [by left|done]|]. by intros [?|?].
    + split; [exists n0; split; [by right|done]|]. by intros [?|?].
Qed.

Lemma live_for_snoc_other (cs : list host_call) (x : host_call) (h : handle) (g : Z) :
  (∀ h' n, x ≠ NewNotification h' n) → (∀ h', x ≠ Revoke h') →
  live_for (cs ++ [x]) h g ↔ live_for cs h g.
Proof.
  intros Hnew Hrev. unfold live_for. setoid_rewrite elem_of_app.
  setoid_rewrite list_elem_of_singleton. split.
  - intros [(n & [Hn|Hn] & Hg) Hr]; [|by destruct (Hnew h n)].
    split; [by exists n|]. intros ?. apply Hr. by left.
  - intros [(n & Hn & Hg) Hr]. split; [exists n; split; [by left|done]|].
    intros [?|?]; [done|]. by destruct (Hrev h).
Qed.

Lemma armed_once_snoc_Revoke (cs : list host_call) (h0 : handle) :
  armed_once cs → armed_once (cs ++ [Revoke h0]).
Proof.
  intros H h1 h2 g [H1 _]%live_for_snoc_Revoke [H2 _]%live_for_snoc_Revoke.
  by apply (H h1 h2 g).
Qed.

Lemma armed_once_snoc_other (cs : list host_call) (x : host_call) :
  (∀ h' n, x ≠ NewNotification h' n) → (∀ h', x ≠ Revoke h') →
  armed_once cs → armed_once (cs ++ [x]).
Proof.
  intros Hnew Hrev H h1 h2 g H1 H2.
  apply live_for_snoc_other in H1, H2; try done. by apply (H h1 h2 g).
Qed.

(** A new notification may be created for a competition that has none
    armed. *)
Lemma armed_once_snoc_New (cs : list host_call) (h0 : handle)
    (n0 : DeferredNotification) :
  (∀ h, ¬ live_for cs h (n_gmid n0)) →
  armed_once cs → armed_once (cs ++ [NewNotification h0 n0]).
Proof.
  intros Hnone H h1 h2 g H1 H2.
  apply live_for_snoc_New in H1 as [H1|(-> & <- & _)],
                             H2 as [H2|(-> & Hg & _)]; try done.
  - by apply (H h1 h2 g).
  - subst g. by destruct (Hnone h1).
  - by destruct (Hnone h2).
Qed.

Lemma prefix_snoc_inv (p cs : list host_call) (x : host_call) :
  p `prefix_of` cs ++ [x] → p `prefix_of` cs ∨ p = cs ++ [x].
Proof.
  intros [k Hk]. destruct k as [|y k _] using rev_ind.
  - right. by rewrite app_nil_r in Hk.
  - left. rewrite app_assoc in Hk. apply app_inj_tail in Hk as [-> _].
    by exists k.
Qed.

Lemma never_two_refl (cs : list host_call) : armed_once cs → never_two cs cs.
Proof.
  intros H p H1 H2. by rewrite (anti_symm prefix p cs H2 H1).
Qed.

Lemma never_two_snoc (cs0 cs : list host_call) (x : host_call) :
  never_two cs0 cs → armed_once (cs ++ [x]) → never_two cs0 (cs ++ [x]).
Proof.
  intros H Hx p H1 H2. apply prefix_snoc_inv in H2 as [H2| ->]; [|done].
  by apply H.
Qed.

Lemma never_two_last (cs0 cs : list host_call) :
  cs0 `prefix_of` cs → never_two cs0 cs → armed_once cs.
Proof. intros Hpre H. by apply H. Qed.

(** ** Reconciliation: one turn of the loop keeps the invariant *)

Lemma elem_of_revocation (c : competition) (x : host_call) :
  x ∈ revocation c ↔ ∃ h, notification c = Some h ∧ x = Revoke h.
Proof.
  unfold revocation. destruct (notification c) as [h0|].
  - rewrite list_elem_of_singleton. split.
    + intros ->. by exists h0.
    + by intros (h & [= ->] & ->).
  - split; [by intros ?%elem_of_nil|by intros (? & ? & _)].
Qed.

Lemma live_for_revocation (cs : list host_call) (c : competition) (h : handle)
    (g : Z) :
  live_for (cs ++ revocation c) h g ↔ live_for cs h g ∧ notification c ≠ Some h.
Proof.
  unfold revocation. destruct (notification c) as [h0|].
  - rewrite live_for_snoc_Revoke. split; intros [? ?]; (split; [done|congruence]).
  - rewrite app_nil_r. split; [by intros ?|by intros [? _]].
Qed.

Lemma never_two_revocation (cs0 cs : list host_call) (c : competition) :
  cs0 `prefix_of` cs → never_two cs0 cs → never_two cs0 (cs ++ revocation c).
Proof.
  intros Hpre H. unfold revocation. destruct (notification c) as [h0|].
  - apply never_two_snoc; [done|].
    apply armed_once_snoc_Revoke. by apply (never_two_last cs0).
  - by rewrite app_nil_r.
Qed.

Section ReconcileStep.

Variable Date_getTime : string → number.
Variable getResourceUrl : string → string.

Lemma updateNotifications_each_returns (st : state) (id : N) (c : competition)
    (tc : number) :
  _hash st !! id = Some c →
  _timeCorrection st = Num tc →
  start_time_ok c →
  (∃ l, rates st = Arr l) →
  ∃ st', _updateNotifications_each Date_getTime getResourceUrl id st = Ok tt st'.
Proof.
  intros Hc Htc Hok Hl.
  rewrite (updateNotifications_each_unfold _ _ st id c Hc).
  destruct Hok as [Hnull|Hty].
  - rewrite Hnull. by eexists.
  - destruct (negb _); [|by eexists].
    by apply (notify_returns _ _ (revoked_state st c) id c tc).
Qed.

Lemma getRemainingTime_Ok_typeof (bt : prim) (st st' : state) (r : number) :
  getRemainingTime Date_getTime bt st = Ok r st' →
  JS.typeof bt = "string" ∨ JS.typeof bt = "number".
Proof.
  rewrite getRemainingTime_unfold. by destruct bt; [| | | right | left].
Qed.

(** One turn of the loop, decided by eligibility: the notification of the
    record is revoked, and a new one is armed exactly when the record is
    eligible. *)
Lemma updateNotifications_each_decides (st : state) (id : N) (c : competition)
    (tc : number) :
  _hash st !! id = Some c →
  _timeCorrection st = Num tc →
  start_time_ok c →
  (∃ l, rates st = Arr l) →
  (¬ eligible Date_getTime st c
   ∧ _updateNotifications_each Date_getTime getResourceUrl id st
     = Ok tt (revoked_state st c))
  ∨ (eligible Date_getTime st c
     ∧ ∃ n d,
         _updateNotifications_each Date_getTime getResourceUrl id st
         = Ok tt (armed_state (revoked_state st c) id n d)
         ∧ n_gmid n = c_id c).
Proof.
  intros Hc Htc Hok [l Hl].
  rewrite (updateNotifications_each_unfold _ _ st id c Hc).
  destruct Hok as [Hnull|Hty].
  { left. rewrite Hnull. split; [|done].
    intros (r & l' & Hr & _). apply getRemainingTime_Ok_typeof in Hr.
    rewrite Hnull in Hr. by destruct Hr. }
  assert (JS.strict_equals (beginTime c) Null = false) as ->.
  { destruct (beginTime c) as [| | |[|]|]; cbn in Hty |- *; try done;
      by destruct Hty. }
  cbn [negb].
  destruct (getRemainingTime_zero_lapsed Date_getTime st c tc Htc Hty)
    as (r & Hr & _).
  assert (getRemainingTime Date_getTime (beginTime c) (revoked_state st c)
          = Ok r (revoked_state st c)) as Hr'.
  { apply (getRemainingTime_same_config _ _ st); [by repeat split|done]. }
  rewrite (notify_unfold _ _ (revoked_state st c) id c Hc), Hr'.
  rewrite (rates_indexOf_Arr (revoked_state st c) l _ Hl).
  change (delay (revoked_state st c)) with (delay st).
  destruct (JS.gt (delay st) (Int 0)) eqn:Hd; cbn [andb]; cycle 1.
  { left. split; [|done]. intros (r' & l' & _ & Hd' & _). congruence. }
  destruct (JS.gt r (Int 0)) eqn:Hr0; cycle 1.
  { left. split; [|done]. intros (r' & l' & Hr'' & _ & Hr0' & _). congruence. }
  destruct (negb (Z.lnot (JS.Array_indexOf l (ratingValue c)) =? 0)) eqn:Hidx.
  - right. apply not_lnot_index, (Array_indexOf_from_found 0) in Hidx; [|lia].
    split; [by exists r, l|].
    destruct (createNotification_shape getResourceUrl (revoked_state st c) c r)
      as (n & d & -> & Hg & _).
    by exists n, d.
  - left. split; [|done]. intros (r' & l' & _ & _ & _ & Hl' & Hin).
    assert (l' = l) as -> by congruence.
    apply (Array_indexOf_from_found 0), not_lnot_index in Hin; [|lia].
    unfold JS.Array_indexOf in Hidx. congruence.
Qed.

Lemma eligible_same_config (s1 s2 : state) (c : competition) :
  same_config s1 s2 → eligible Date_getTime s1 c → eligible Date_getTime s2 c.
Proof.
  intros Hcfg (r & l & Hr & Hd & Hr0 & Hl & Hin). exists r, l.
  split; [by apply (getRemainingTime_same_config _ _ s1)|].
  destruct Hcfg as (Hr' & Hd' & _). by rewrite Hr', Hd'.
Qed.

Lemma same_config_sym (s1 s2 : state) : same_config s1 s2 → same_config s2 s1.
Proof. unfold same_config. intros (?&?&?&?&?&?). by repeat split. Qed.

Lemma reconcile_step (cs0 : list host_call) (st : state) (id : N)
    (c : competition) (tc : number) :
  _hash st !! id = Some c →
  _timeCorrection st = Num tc →
  start_time_ok c →
  (∃ l, rates st = Arr l) →
  cs0 `prefix_of` calls st →
  never_two cs0 (calls st) →
  owned st →
  ids_unique st →
  ∃ st' new,
    _updateNotifications_each Date_getTime getResourceUrl id st = Ok tt st'
    ∧ same_config st st'
    ∧ calls st' = calls st ++ revocation c ++ new
    ∧ never_two cs0 (calls st')
    ∧ owned st'
    ∧ (∀ k, k ≠ id → _hash st' !! k = _hash st !! k)
    ∧ (∃ c', _hash st' !! id = Some c' ∧ c_id c' = c_id c
             ∧ ratingValue c' = ratingValue c ∧ beginTime c' = beginTime c)
    ∧ (JS.gt (delay st) (Int 0) = false → new = [] ∧ _hash st' = _hash st).
Proof.
  intros Hc Htc Hok Hl Hpre Hnever Hown Huniq.
  destruct (updateNotifications_each_returns st id c tc Hc Htc Hok Hl)
    as [st' Hrun].
  assert (never_two cs0 (calls (revoked_state st c))) as Hnever1
    by by apply never_two_revocation.
  assert (cs0 `prefix_of` calls (revoked_state st c)) as Hpre1
    by by apply prefix_app_r.
  assert (∀ h, ¬ live_for (calls (revoked_state st c)) h (c_id c)) as Hnone.
  { intros h [Hlive Hne]%live_for_revocation. apply Hne. by apply (Hown id). }
  assert (owned (revoked_state st c)) as Hown1.
  { intros k ck h Hk [Hlive _]%live_for_revocation. by apply (Hown k). }
  destruct (updateNotifications_each_cases Date_getTime getResourceUrl st id c Hc)
    as [Hfin|(r & n & d & Harm & Hg & Hnn & _ & Hd & _)].
  - rewrite Hrun in Hfin. cbn in Hfin. subst st'.
    exists (revoked_state st c), []. rewrite app_nil_r.
    split; [done|]. split; [by repeat split|]. split; [done|].
    split; [done|]. split; [done|]. split; [done|].
    split; [by exists c|done].
  - rewrite Hrun in Harm. injection Harm as ->.
    exists (armed_state (revoked_state st c) id n d),
           [NewNotification (next_handle st) n; ShowAfter (next_handle st) d].
    split; [done|]. split; [by repeat split|].
    split; [rewrite armed_state_calls; cbn; by rewrite <- app_assoc|].
    assert (armed_once (calls (revoked_state st c)
                          ++ [NewNotification (next_handle st) n])) as Hnew.
    { apply armed_once_snoc_New; [by rewrite Hg|].
      by apply (never_two_last cs0). }
    split; [|split; [|split; [|split]]].
    + rewrite armed_state_calls.
      change (?a ++ [?x; ?y]) with (a ++ [x] ++ [y]). rewrite app_assoc.
      apply never_two_snoc; [by apply never_two_snoc|].
      by apply armed_once_snoc_other.
    + intros k ck h Hk Hlive. rewrite armed_state_calls in Hlive.
      change (?a ++ [?x; ?y]) with (a ++ [x] ++ [y]) in Hlive.
      rewrite app_assoc in Hlive.
      apply live_for_snoc_other in Hlive; [|done..].
      apply live_for_snoc_New in Hlive. cbn in Hk.
      destruct (decide (k = id)) as [->|Hne].
      * rewrite lookup_alter_eq, Hc in Hk. injection Hk as <-. cbn in Hlive |- *.
        destruct Hlive as [Hlive|(-> & _)]; [by destruct (Hnone h)|done].
      * rewrite lookup_alter_ne in Hk by done.
        destruct Hlive as [Hlive|(_ & Hgk & _)].
        -- by apply (Hown1 k).
        -- destruct Hne. apply (Huniq k id ck c); [done..|congruence].
    + intros k Hne. cbn. by rewrite lookup_alter_ne.
    + exists (set_notification (next_handle st) c). cbn.
      by rewrite lookup_alter_eq, Hc.
    + cbn in Hd. congruence.
Qed.

End ReconcileStep.

(** ** Reconciliation: the whole pass *)

Lemma same_events_refl (st : state) : same_events st st.
Proof. intros k. destruct (_hash st !! k) as [c|] eqn:Hc; [by exists c|done]. Qed.

Lemma same_events_trans (s1 s2 s3 : state) :
  same_events s1 s2 → same_events s2 s3 → same_events s1 s3.
Proof.
  intros H12 H23 k. specialize (H12 k). specialize (H23 k).
  destruct (_hash s1 !! k) as [c1|].
  - destruct H12 as (c2 & Hc2 & ? & ? & ?). rewrite Hc2 in H23.
    destruct H23 as (c3 & Hc3 & ? & ? & ?). exists c3.
    repeat split; congruence.
  - by rewrite H12 in H23.
Qed.

Lemma same_events_inv (st st' : state) (k : N) (c' : competition) :
  same_events st st' → _hash st' !! k = Some c' →
  ∃ c, _hash st !! k = Some c ∧ c_id c' = c_id c
       ∧ ratingValue c' = ratingValue c ∧ beginTime c' = beginTime c.
Proof.
  intros H Hc'. specialize (H k). destruct (_hash st !! k) as [c|].
  - destruct H as (c2 & Hc2 & ? & ? & ?). exists c.
    assert (c2 = c') as -> by congruence. done.
  - congruence.
Qed.

Lemma same_events_start_time_ok (st st' : state) :
  same_events st st' →
  (∀ k c, _hash st !! k = Some c → start_time_ok c) →
  ∀ k c, _hash st' !! k = Some c → start_time_ok c.
Proof.
  intros H Hok k c' Hc'.
  destruct (same_events_inv st st' k c' H Hc') as (c & Hc & _ & _ & Hb).
  specialize (Hok k c Hc). unfold start_time_ok in *. by rewrite Hb.
Qed.

Lemma same_events_ids_unique (st st' : state) :
  same_events st st' → ids_unique st → ids_unique st'.
Proof.
  intros H Hu k1 k2 c1 c2 H1 H2 Hid.
  destruct (same_events_inv st st' k1 c1 H H1) as (d1 & Hd1 & Hi1 & _).
  destruct (same_events_inv st st' k2 c2 H H2) as (d2 & Hd2 & Hi2 & _).
  apply (Hu k1 k2 d1 d2); [done..|congruence].
Qed.

Lemma live_for_passive (cs xs : list host_call) (h : handle) (g : Z) :
  Forall passive xs → live_for (cs ++ xs) h g ↔ live_for cs h g.
Proof.
  intros Hxs. revert cs. induction Hxs as [|x xs [Hn Hr] _ IH]; intros cs.
  - by rewrite app_nil_r.
  - change (x :: xs) with ([x] ++ xs). rewrite app_assoc, IH.
    by apply live_for_snoc_other.
Qed.

Lemma never_two_passive (cs0 cs xs : list host_call) :
  Forall passive xs → cs0 `prefix_of` cs →
  never_two cs0 cs → never_two cs0 (cs ++ xs).
Proof.
  intros Hxs. revert cs. induction Hxs as [|x xs [Hn Hr] _ IH]; intros cs Hpre H.
  - by rewrite app_nil_r.
  - change (x :: xs) with ([x] ++ xs). rewrite app_assoc.
    apply IH; [by apply prefix_app_r|].
    apply never_two_snoc; [done|].
    apply armed_once_snoc_other; [done..|]. by apply (never_two_last cs0).
Qed.

Lemma persisted_passive (st : state) : Forall passive (persisted st).
Proof. unfold persisted. repeat constructor; done. Qed.

Section ReconcilePass.

Variable Date_getTime : string → number.
Variable getResourceUrl : string → string.

Lemma reconcile_loop (cs0 : list host_call) (tc : number) (ks : list N) :
  NoDup ks →
  ∀ st,
    _timeCorrection st = Num tc →
    (∀ k c, _hash st !! k = Some c → start_time_ok c) →
    (∃ l, rates st = Arr l) →
    cs0 `prefix_of` calls st →
    never_two cs0 (calls st) →
    owned st →
    ids_unique st →
    ∃ st' new,
      for_in_keys ks (_updateNotifications_each Date_getTime getResourceUrl) st
      = Ok tt st'
      ∧ same_config st st'
      ∧ calls st' = calls st ++ new
      ∧ never_two cs0 (calls st')
      ∧ owned st'
      ∧ same_events st st'
      ∧ (∀ k, k ∉ ks → _hash st' !! k = _hash st !! k)
      ∧ (∀ k c h, k ∈ ks → _hash st !! k = Some c → notification c = Some h →
         Revoke h ∈ new)
      ∧ (JS.gt (delay st) (Int 0) = false →
         new = revocations (_hash st) ks ∧ _hash st' = _hash st).
Proof.
  induction ks as [|k ks IH]; intros Hnd st Htc Hok Hl Hpre Hnever Hown Huniq.
  - exists st, []. rewrite app_nil_r.
    split; [done|]. split; [apply same_config_refl|]. split; [done|].
    split; [done|]. split; [done|]. split; [apply same_events_refl|].
    split; [done|]. split; [|done]. by intros k c h ?%elem_of_nil.
  - apply NoDup_cons in Hnd as [Hk Hnd].
    cbn [for_in_keys]. unfold bind at 1 2. unfold get at 1.
    destruct (_hash st !! k) as [c|] eqn:Hc.
    + destruct (reconcile_step Date_getTime getResourceUrl cs0 st k c tc
                  Hc Htc (Hok k c Hc) Hl Hpre Hnever Hown Huniq)
        as (st1 & new1 & -> & Hcfg1 & Hcalls1 & Hnever1 & Hown1 & Hother1
            & (c1 & Hc1 & Hid1 & Hrv1 & Hbt1) & Hzero1).
      assert (same_events st st1) as Hev1.
      { intros j. destruct (decide (j = k)) as [->|Hj].
        - rewrite Hc. by exists c1.
        - rewrite (Hother1 j Hj). destruct (_hash st !! j) as [cj|]; [by exists cj|done]. }
      destruct Hcfg1 as (Hr1 & Hd1 & Ht1 & Ha1 & Htc1 & Hnow1).
      destruct (IH Hnd st1) as (st' & new & Hrun & Hcfg & Hcalls & Hnever' & Hown'
                                 & Hev & Hother & Hrev & Hzero).
      { congruence. }
      { by apply (same_events_start_time_ok st). }
      { by rewrite Hr1. }
      { rewrite Hcalls1. by apply prefix_app_r. }
      { done. }
      { done. }
      { by apply (same_events_ids_unique st). }
      exists st', (revocation c ++ new1 ++ new).
      split; [done|]. split; [by apply (same_config_trans st st1)|].
      split; [by rewrite Hcalls, Hcalls1, <- !app_assoc|].
      split; [done|]. split; [done|].
      split; [by apply (same_events_trans st st1)|].
      split; [|split].
      * intros j [Hjk Hj]%not_elem_of_cons. by rewrite (Hother j Hj), (Hother1 j Hjk).
      * intros j cj h [->|Hj]%elem_of_cons Hcj Hh.
        -- assert (cj = c) as -> by congruence.
           apply elem_of_app. left. unfold revocation. rewrite Hh.
           apply list_elem_of_here.
        -- apply elem_of_app. right. apply elem_of_app. right.
           apply (Hrev j cj h Hj); [|done].
           rewrite Hother1; [done|]. intros ->. done.
      * intros Hd. destruct (Hzero1 Hd) as [-> Hh1].
        rewrite Hd1 in Hzero. destruct (Hzero Hd) as [-> Hh].
        split; [|congruence]. rewrite Hh1. unfold revocations. cbn.
        by rewrite Hc.
    + unfold ret at 1.
      destruct (IH Hnd st Htc Hok Hl Hpre Hnever Hown Huniq)
        as (st' & new & Hrun & Hcfg & Hcalls & Hnever' & Hown'
            & Hev & Hother & Hrev & Hzero).
      exists st', new. split; [done|]. split; [done|]. split; [done|].
      split; [done|]. split; [done|]. split; [done|]. split; [|split].
      * intros j [Hjk Hj]%not_elem_of_cons. by apply Hother.
      * intros j cj h [->|Hj]%elem_of_cons Hcj Hh; [congruence|].
        by apply (Hrev j cj h).
      * intros Hd. destruct (Hzero Hd) as [-> Hh]. split; [|done].
        unfold revocations. cbn. by rewrite Hc.
Qed.

Lemma reconcile_refs_loop (tc : number) (ks : list N) :
  NoDup ks →
  ∀ st,
    _timeCorrection st = Num tc →
    (∀ k c, _hash st !! k = Some c → start_time_ok c) →
    (∃ l, rates st = Arr l) →
    allocated st →
    ∃ st' new,
      for_in_keys ks (_updateNotifications_each Date_getTime getResourceUrl) st
      = Ok tt st'
      ∧ calls st' = calls st ++ new
      ∧ same_config st st'
      ∧ (next_handle st ≤ next_handle st')%nat
      ∧ (∀ k, k ∉ ks → _hash st' !! k = _hash st !! k)
      ∧ (∀ h, Revoke h ∈ new →
         ∃ k c, k ∈ ks ∧ _hash st !! k = Some c ∧ notification c = Some h)
      ∧ (∀ k c, k ∈ ks → _hash st !! k = Some c →
         (¬ eligible Date_getTime st c ∧ _hash st' !! k = Some c)
         ∨ (eligible Date_getTime st c
            ∧ ∃ h, _hash st' !! k = Some (set_notification h c)
                   ∧ live_for (calls st') h (c_id c)
                   ∧ (next_handle st ≤ h)%nat)).
Proof.
  induction ks as [|k ks IH]; intros Hnd st Htc Hok Hl [Hrevs Hrefs].
  - exists st, []. rewrite app_nil_r.
    split; [done|]. split; [done|]. split; [apply same_config_refl|].
    split; [done|]. split; [done|].
    split; [by intros h ?%elem_of_nil|by intros k c ?%elem_of_nil].
  - apply NoDup_cons in Hnd as [Hk Hnd].
    cbn [for_in_keys]. unfold bind at 1 2. unfold get at 1.
    destruct (_hash st !! k) as [c|] eqn:Hc; cycle 1.
    { unfold ret at 1.
      destruct (IH Hnd st Htc Hok Hl (conj Hrevs Hrefs))
        as (st' & new & Hrun & Hcalls & Hcfg & Hnh & Hother & Hr1 & Hr2).
      exists st', new. repeat (split; [done|]). split; [|split].
      - intros j [_ Hj]%not_elem_of_cons. by apply Hother.
      - intros h Hh. destruct (Hr1 h Hh) as (j & cj & Hj & Hcj & Hn).
        exists j, cj. split; [by apply elem_of_cons; right|done].
      - intros j cj [->|Hj]%elem_of_cons Hcj; [congruence|by apply Hr2]. }
    assert (∃ st1 new1,
      _updateNotifications_each Date_getTime getResourceUrl k st = Ok tt st1
      ∧ calls st1 = calls st ++ revocation c ++ new1
      ∧ (∀ h, Revoke h ∉ new1)
      ∧ same_config st st1
      ∧ (next_handle st ≤ next_handle st1)%nat
      ∧ (∀ j, j ≠ k → _hash st1 !! j = _hash st !! j)
      ∧ ((¬ eligible Date_getTime st c ∧ _hash st1 !! k = Some c)
         ∨ (eligible Date_getTime st c
            ∧ _hash st1 !! k = Some (set_notification (next_handle st) c)
            ∧ (next_handle st < next_handle st1)%nat
            ∧ ∃ n, NewNotification (next_handle st) n ∈ new1 ∧ n_gmid n = c_id c)))
      as (st1 & new1 & Hrun1 & Hcalls1 & Hnorev1 & Hcfg1 & Hnh1 & Hother1 & Hcase1).
    { destruct (updateNotifications_each_decides Date_getTime getResourceUrl
                  st k c tc Hc Htc (Hok k c Hc) Hl)
        as [[Hne ->]|(Hel & n & d & -> & Hg)].
      - exists (revoked_state st c), []. rewrite app_nil_r.
        split; [done|]. split; [done|]. split; [by intros h ?%elem_of_nil|].
        split; [by repeat split|]. split; [done|]. split; [done|]. by left.
      - exists (armed_state (revoked_state st c) k n d),
               [NewNotification (next_handle st) n; ShowAfter (next_handle st) d].
        split; [done|].
        split; [rewrite armed_state_calls; cbn; by rewrite <- app_assoc|].
        split.
        { intros h Hh. repeat (apply elem_of_cons in Hh as [Hh|Hh]); try done.
          by apply elem_of_nil in Hh. }
        split; [by repeat split|]. split; [cbn; lia|].
        split; [intros j Hj; cbn; by rewrite lookup_alter_ne|].
        right. cbn. rewrite lookup_alter_eq, Hc.
        split; [done|]. split; [done|]. split; [lia|].
        exists n. split; [apply list_elem_of_here|done]. }
    rewrite Hrun1.
    assert (same_events st st1) as Hev1.
    { intros j. destruct (decide (j = k)) as [->|Hj].
      - rewrite Hc. destruct Hcase1 as [[_ ->]|(_ & -> & _)]; by eexists.
      - rewrite (Hother1 j Hj).
        destruct (_hash st !! j) as [cj|]; [by exists cj|done]. }
    pose proof Hcfg1 as (Hr1 & Hd1 & Ht1 & Ha1 & Htc1 & Hnow1).
    destruct (IH Hnd st1) as (st' & new & Hrun & Hcalls & Hcfg & Hnh & Hother
                               & HR1 & HR2).
    { congruence. }
    { by apply (same_events_start_time_ok st). }
    { by rewrite Hr1. }
    { split.
      - intros h Hh. rewrite Hcalls1 in Hh.
        apply elem_of_app in Hh as [Hh|Hh]; [specialize (Hrevs h Hh); lia|].
        apply elem_of_app in Hh as [Hh|Hh]; [|by destruct (Hnorev1 h)].
        apply elem_of_revocation in Hh as (h' & Hh' & [= ->]).
        specialize (Hrefs k c h' Hc Hh'). lia.
      - intros j cj h Hcj Hh. destruct (decide (j = k)) as [->|Hj].
        + destruct Hcase1 as [[_ Hk1]|(_ & Hk1 & Hlt & _)]; rewrite Hk1 in Hcj;
            injection Hcj as <-.
          * specialize (Hrefs k c h Hc Hh). lia.
          * cbn in Hh. injection Hh as <-. lia.
        + rewrite (Hother1 j Hj) in Hcj. specialize (Hrefs j cj h Hcj Hh). lia. }
    exists st', (revocation c ++ new1 ++ new).
    split; [done|]. split; [by rewrite Hcalls, Hcalls1, <- !app_assoc|].
    split; [by apply (same_config_trans st st1)|]. split; [lia|].
    split; [|split].
    + intros j [Hjk Hj]%not_elem_of_cons. by rewrite (Hother j Hj), (Hother1 j Hjk).
    + intros h Hh. apply elem_of_app in Hh as [Hh|Hh].
      { apply elem_of_revocation in Hh as (h' & Hh' & [= ->]).
        exists k, c. split; [apply list_elem_of_here|done]. }
      apply elem_of_app in Hh as [Hh|Hh]; [by destruct (Hnorev1 h)|].
      destruct (HR1 h Hh) as (j & cj & Hj & Hcj & Hn).
      exists j, cj. split; [by apply elem_of_cons; right|].
      split; [|done]. rewrite <- (Hother1 j); [done|]. by intros ->.
    + intros j cj [->|Hj]%elem_of_cons Hcj.
      * assert (cj = c) as -> by congruence.
        rewrite (Hother k Hk).
        destruct Hcase1 as [[Hne Hk1]|(Hel & Hk1 & Hlt & n & Hn & Hgn)].
        -- by left.
        -- right. split; [done|]. exists (next_handle st). split; [done|].
           split; [|done]. split.
           ++ exists n. split; [|done]. rewrite Hcalls, Hcalls1.
              apply elem_of_app. left. apply elem_of_app. right.
              apply elem_of_app. by right.
           ++ rewrite Hcalls, Hcalls1. intros Hh.
              apply elem_of_app in Hh as [Hh|Hh].
              { apply elem_of_app in Hh as [Hh|Hh]; [specialize (Hrevs _ Hh); lia|].
                apply elem_of_app in Hh as [Hh|Hh]; [|by destruct (Hnorev1 _ Hh)].
                apply elem_of_revocation in Hh as (h' & Hh' & [= <-]).
                specialize (Hrefs k c _ Hc Hh'). lia. }
              destruct (HR1 _ Hh) as (j & cj & Hj & Hcj' & Hn').
              rewrite Hother1 in Hcj' by (by intros ->).
              specialize (Hrefs j cj _ Hcj' Hn'). lia.
      * assert (j ≠ k) as Hjk by (by intros ->).
        rewrite <- (Hother1 j Hjk) in Hcj.
        destruct (HR2 j cj Hj Hcj) as [[Hne Hst']|(Hel & h & Hst' & Hlive & Hge)].
        -- left. split; [|done]. intros Hel. apply Hne.
           by apply (eligible_same_config Date_getTime st st1).
        -- right. split.
           { apply (eligible_same_config Date_getTime st1 st); [|done].
             by apply same_config_sym. }
           exists h. split; [done|]. split; [done|]. lia.
Qed.

(** C3. With the correction established, every start time null, a string or
    a number, an array as resulting rates, and a table in which no
    competition has two armed notifications, every armed notification of a
    competition is the one its record refers to, no two records share an id
    and the handles in use have been handed out: [setParams] returns
    normally; after the four [setItem] it calls [revoke()] on the
    notification of every record that has one; a record that is eligible
    under the resulting configuration is then handed a new notification,
    armed at the end of the pass, and any other record is left as it was; at
    no moment of the pass does a competition have two armed notifications (a
    record's notification is revoked before one is armed for it again); the
    table keeps its competitions; and when the resulting delay is not
    greater than 0, in particular when 0 is supplied, the only calls after
    the [setItem] are the [revoke()] and no record is touched. *)
Theorem setParams_reconciles (st : state) (param : params) (tc : number) :
  _timeCorrection st = Num tc →
  (∀ k c, _hash st !! k = Some c → start_time_ok c) →
  (∃ l, rates (assign_params param st) = Arr l) →
  armed_once (calls st) →
  owned st →
  ids_unique st →
  allocated st →
  ∃ st' new,
    setParams Date_getTime getResourceUrl param st = Ok tt st'
    ∧ calls st' = calls st ++ persisted st' ++ new
    ∧ never_two (calls st) (calls st')
    ∧ (∀ k c h, _hash st !! k = Some c → notification c = Some h →
       Revoke h ∈ new)
    ∧ (∀ k c, _hash st !! k = Some c →
       (¬ eligible Date_getTime st' c ∧ _hash st' !! k = Some c)
       ∨ (eligible Date_getTime st' c
          ∧ ∃ h, _hash st' !! k = Some (set_notification h c)
                 ∧ live_for (calls st') h (c_id c)))
    ∧ same_events st st'
    ∧ owned st'
    ∧ (JS.gt (delay st') (Int 0) = false →
       new = revocations (_hash st) (keys (_hash st)) ∧ _hash st' = _hash st)
    ∧ (p_delay param = Num (Int 0) →
       new = revocations (_hash st) (keys (_hash st)) ∧ _hash st' = _hash st).
Proof.
  intros Htc Hok Hl Honce Hown Huniq [Hrevs Hrefs].
  rewrite setParams_unfold. set (st0 := assign_params param st).
  set (st1 := set_host _ _ _).
  assert (Forall passive (persisted st0)) as Hpass by apply persisted_passive.
  destruct (reconcile_loop (calls st) tc (keys (_hash st1)) (NoDup_keys _) st1)
    as (st' & new & Hrun & Hcfg & Hcalls & Hnever & Hown' & Hev & _ & Hrev & Hzero);
    try done.
  { by apply prefix_app_r. }
  { apply never_two_passive; [done..|]. by apply never_two_refl. }
  { intros k c h Hc Hlive. apply (Hown k c h Hc).
    by apply (live_for_passive (calls st)) in Hlive. }
  destruct (reconcile_refs_loop tc (keys (_hash st1)) (NoDup_keys _) st1)
    as (st'' & new' & Hrun' & _ & _ & _ & _ & _ & Harm); try done.
  { split; [|done]. intros h Hh. cbn in Hh.
    apply elem_of_app in Hh as [Hh|Hh]; [by apply Hrevs|].
    unfold persisted in Hh.
    repeat (apply elem_of_cons in Hh as [Hh|Hh]); try done.
    by apply elem_of_nil in Hh. }
  assert (st'' = st') as -> by congruence.
  pose proof Hcfg as (Hr & Hd & Ht & Ha & _ & _).
  assert (persisted st' = persisted st0) as Hp
    by (unfold persisted; by rewrite Hr, Hd, Ht, Ha).
  assert (JS.gt (delay st') (Int 0) = false →
          new = revocations (_hash st) (keys (_hash st)) ∧ _hash st' = _hash st)
    as Hzero'.
  { rewrite Hd. intros H. by destruct (Hzero H). }
  exists st', new. split; [exact Hrun|].
  split; [rewrite Hcalls, Hp; cbn; by rewrite <- app_assoc|].
  split; [done|]. split.
  { intros k c h Hc Hh. apply (Hrev k c h); [|done..].
    apply elem_of_keys. by exists c. }
  split.
  { intros k c Hc.
    destruct (Harm k c) as [[Hne Hk]|(Hel & h & Hk & Hlive & _)].
    - apply elem_of_keys. by exists c.
    - done.
    - left. split; [|done]. intros Hel. apply Hne.
      apply (eligible_same_config Date_getTime st' st1); [|done].
      by apply same_config_sym.
    - right. split; [by apply (eligible_same_config Date_getTime st1 st')|].
      by exists h. }
  split; [done|]. split; [done|]. split; [done|].
  intros Hp0. apply Hzero'. rewrite Hd. cbn. by rewrite Hp0.
Qed.

End ReconcilePass.

(** The sample with two armed notifications meets the conditions of C3. *)
Lemma sample_two_lookup (k : N) (c : competition) :
  _hash sample_two !! k = Some c →
  (k = 7%N ∧ c_id c = 7 ∧ beginTime c = Num (Int 304)
   ∧ notification c = Some 0%nat)
  ∨ (k = 9%N ∧ c_id c = 9 ∧ beginTime c = Num (Int 904)
     ∧ notification c = Some 1%nat).
Proof.
  unfold sample_two. cbn [_hash]. intros H.
  apply lookup_insert_Some in H as [[<- <-]|[_ H]]; [by left|].
  apply lookup_singleton_Some in H as [<- <-]. by right.
Qed.

Lemma sample_two_live (h : handle) (g : Z) :
  live_for (calls sample_two) h g → (h = 0%nat ∧ g = 7) ∨ (h = 1%nat ∧ g = 9).
Proof.
  intros [(n & Hn & Hg) _]. unfold sample_two in Hn. cbn [calls] in Hn.
  repeat (apply elem_of_cons in Hn as [Hn|Hn]); try done.
  - injection Hn as -> ->. by left.
  - injection Hn as -> ->. by right.
  - by apply elem_of_nil in Hn.
Qed.

Lemma sample_two_armed_once : armed_once (calls sample_two).
Proof.
  intros h1 h2 g H1 H2.
  apply sample_two_live in H1 as [[-> ->]|[-> ->]],
                           H2 as [[-> ?]|[-> ?]]; done.
Qed.

Lemma sample_two_owned : owned sample_two.
Proof.
  intros k c h Hc Hlive.
  apply sample_two_lookup in Hc as [(_ & Hid & _ & ->)|(_ & Hid & _ & ->)];
    apply sample_two_live in Hlive as [[-> Hg]|[-> Hg]];
    first [done|congruence].
Qed.

Lemma sample_two_ids_unique : ids_unique sample_two.
Proof.
  intros k1 k2 c1 c2 H1 H2 Hid.
  apply sample_two_lookup in H1 as [(-> & Hi1 & _)|(-> & Hi1 & _)],
                           H2 as [(-> & Hi2 & _)|(-> & Hi2 & _)];
    congruence.
Qed.

Lemma sample_two_allocated : allocated sample_two.
Proof.
  split.
  - intros h Hh. unfold sample_two in Hh. cbn [calls] in Hh.
    repeat (apply elem_of_cons in Hh as [Hh|Hh]); try done.
    by apply elem_of_nil in Hh.
  - intros k c h Hc Hh.
    apply sample_two_lookup in Hc as [(_ & _ & _ & Hn)|(_ & _ & _ & Hn)];
      rewrite Hn in Hh; injection Hh as <-; cbn; lia.
Qed.

(** C3 on the sample with two armed notifications, the delay being set to
    0. *)
Lemma setParams_reconciles_witness :
  ∃ st' new,
    setParams sample_Date_getTime sample_getResourceUrl sample_delay_zero sample_two
    = Ok tt st'
    ∧ calls st' = calls sample_two ++ persisted st' ++ new
    ∧ never_two (calls sample_two) (calls st')
    ∧ (∀ k c h, _hash sample_two !! k = Some c → notification c = Some h →
       Revoke h ∈ new)
    ∧ (∀ k c, _hash sample_two !! k = Some c →
       (¬ eligible sample_Date_getTime st' c ∧ _hash st' !! k = Some c)
       ∨ (eligible sample_Date_getTime st' c
          ∧ ∃ h, _hash st' !! k = Some (set_notification h c)
                 ∧ live_for (calls st') h (c_id c)))
    ∧ same_events sample_two st'
    ∧ owned st'
    ∧ (JS.gt (delay st') (Int 0) = false →
       new = revocations (_hash sample_two) (keys (_hash sample_two))
       ∧ _hash st' = _hash sample_two)
    ∧ (p_delay sample_delay_zero = Num (Int 0) →
       new = revocations (_hash sample_two) (keys (_hash sample_two))
       ∧ _hash st' = _hash sample_two).
Proof.
  apply (setParams_reconciles sample_Date_getTime sample_getResourceUrl
           sample_two sample_delay_zero (Int 250)).
  - reflexivity.
  - intros k c Hc. right. right.
    apply sample_two_lookup in Hc as [(_ & _ & -> & _)|(_ & _ & -> & _)];
      reflexivity.
  - eexists. reflexivity.
  - exact sample_two_armed_once.
  - exact sample_two_owned.
  - exact sample_two_ids_unique.
  - exact sample_two_allocated.
Defined.

(** Scenario: the delay set to 0 while two notifications are armed.  Both
    are revoked and none is armed. *)
Example setParams_delay_zero_sample_two :
  ∃ st',
    setParams sample_Date_getTime sample_getResourceUrl sample_delay_zero sample_two
    = Ok tt st'
    ∧ calls st' = calls sample_two ++ persisted st' ++ [Revoke 0%nat; Revoke 1%nat]
    ∧ _hash st' = _hash sample_two.
Proof. eexists. split; [vm_compute; reflexivity|]. split; reflexivity. Qed.


(** Scenario: the display time set to 10 s while two notifications are
    armed.  Each is revoked and then replaced, record by record. *)
Example setParams_rearms_sample_two :
  ∃ st' n2 n3,
    setParams sample_Date_getTime sample_getResourceUrl sample_display_ten sample_two
    = Ok tt st'
    ∧ calls st'
      = calls sample_two ++ persisted st'
          ++ [Revoke 0%nat; NewNotification 2%nat n2; ShowAfter 2%nat (Int 240);
              Revoke 1%nat; NewNotification 3%nat n3; ShowAfter 3%nat (Int 840)]
    ∧ n_gmid n2 = 7 ∧ n_displayTime n2 = Some (Int 10)
    ∧ n_gmid n3 = 9 ∧ n_displayTime n3 = Some (Int 10)
    ∧ notification <$> _hash st' !! 7%N = Some (Some 2%nat)
    ∧ notification <$> _hash st' !! 9%N = Some (Some 3%nat).
Proof.
  eexists _, _, _. split; [vm_compute; reflexivity|].
  repeat split; reflexivity.
Qed.

(** ** What the records refer to *)

Section References.

Variable Date_getTime : string → number.
Variable getResourceUrl : string → string.

(** C6, as the module has it.  [_notify] is where a record is handed a
    reference, and it leaves the other records alone.  When it hands one
    over, the start time of the record is a string or a number, hence not
    null; the record was eligible at that moment (the delay and the
    remaining time are greater than 0 and [indexOf] finds the rating value);
    and the reference is to the notification just created for this
    competition, which is armed as long as its handle was not revoked
    beforehand.  Nothing says the notification is still armed later: the
    reference is not cleared when it is revoked. *)
Theorem notify_reference (st : state) (id : N) (c : competition) :
  _hash st !! id = Some c →
  let st' := final_state (_notify Date_getTime getResourceUrl id st) in
  (∀ k, k ≠ id → _hash st' !! k = _hash st !! k)
  ∧ (_hash st' !! id = Some c
     ∨ ∃ r n d i,
         st' = armed_state st id n d
         ∧ _hash st' !! id = Some (set_notification (next_handle st) c)
         ∧ (JS.typeof (beginTime c) = "string" ∨ JS.typeof (beginTime c) = "number")
         ∧ beginTime c ≠ Null
         ∧ getRemainingTime Date_getTime (beginTime c) st = Ok r st
         ∧ JS.gt (delay st) (Int 0) = true
         ∧ JS.gt r (Int 0) = true
         ∧ rates_indexOf (ratingValue c) st = Ok i st ∧ i ≠ -1
         ∧ n_gmid n = c_id c
         ∧ (Revoke (next_handle st) ∉ calls st →
            live_for (calls st') (next_handle st) (c_id c))).
Proof.
  intros Hc st'. subst st'.
  destruct (notify_cases Date_getTime getResourceUrl st id c Hc)
    as [->|(r & n & d & -> & Hg & Hr & Hd & Hr0 & i & Hi & Hne)];
    cbn [final_state].
  - split; [done|by left].
  - split; [intros k Hk; cbn; by rewrite lookup_alter_ne|].
    right. exists r, n, d, i.
    pose proof (getRemainingTime_Ok_typeof _ _ _ _ _ Hr) as Hty.
    split; [done|]. split; [cbn; by rewrite lookup_alter_eq, Hc|].
    split; [done|]. split; [intros Hb; rewrite Hb in Hty; by destruct Hty|].
    repeat (split; [done|]).
    intros Hrev. rewrite armed_state_calls. split.
    + exists n. split; [|done]. apply elem_of_app. right. apply list_elem_of_here.
    + intros Hin. apply elem_of_app in Hin as [Hin|Hin]; [done|].
      repeat (apply elem_of_cons in Hin as [Hin|Hin]); try done.
      by apply elem_of_nil in Hin.
Qed.

End References.

(** C6 on the sample competition: the record is handed the notification 0,
    armed from then on. *)
Lemma notify_reference_witness :
  let st' := final_state (_notify sample_Date_getTime sample_getResourceUrl
                            7%N sample_one) in
  (∀ k, k ≠ 7%N → _hash st' !! k = _hash sample_one !! k)
  ∧ (_hash st' !! 7%N = Some sample_c7
     ∨ ∃ r n d i,
         st' = armed_state sample_one 7%N n d
         ∧ _hash st' !! 7%N = Some (set_notification (next_handle sample_one) sample_c7)
         ∧ (JS.typeof (beginTime sample_c7) = "string"
            ∨ JS.typeof (beginTime sample_c7) = "number")
         ∧ beginTime sample_c7 ≠ Null
         ∧ getRemainingTime sample_Date_getTime (beginTime sample_c7) sample_one
           = Ok r sample_one
         ∧ JS.gt (delay sample_one) (Int 0) = true
         ∧ JS.gt r (Int 0) = true
         ∧ rates_indexOf (ratingValue sample_c7) sample_one = Ok i sample_one
         ∧ i ≠ -1
         ∧ n_gmid n = c_id sample_c7
         ∧ (Revoke (next_handle sample_one) ∉ calls sample_one →
            live_for (calls st') (next_handle sample_one) (c_id sample_c7))).
Proof.
  apply (notify_reference sample_Date_getTime sample_getResourceUrl
           sample_one 7%N sample_c7).
  reflexivity.
Defined.

(** C6 as stated fails: once the delay has been set to 0, the record 7 of
    the sample still refers to the notification 0, which the pass has
    revoked. *)
Lemma record_keeps_revoked_reference :
  let st' := final_state (setParams sample_Date_getTime sample_getResourceUrl
                            sample_delay_zero sample_two) in
  ¬ (∀ k c h, _hash st' !! k = Some c → notification c = Some h →
              live_for (calls st') h (c_id c)).
Proof.
  intros st' H.
  destruct (H 7%N {| c_id := 7; ratingValue := Num (Int 3);
                     beginTime := Num (Int 304); notification := Some 0%nat |}
              0%nat) as [_ Hrev]; [vm_compute; reflexivity|reflexivity|].
  apply Hrev. apply list_elem_of_In. vm_compute.
  repeat (first [left; reflexivity|right]).
Qed.

(** * Further properties *)

(** ** Configuration round trips *)

Lemma updateNotifications_each_no_setItem (Date_getTime : string → number)
    (getResourceUrl : string → string) (st : state) (id : N) :
  is_Some (_hash st !! id) →
  ∃ new,
    calls (final_state (_updateNotifications_each Date_getTime getResourceUrl id st))
    = calls st ++ new
    ∧ Forall (λ x, ∀ k v, x ≠ StorageSetItem k v) new.
Proof.
  intros [c Hc].
  destruct (updateNotifications_each_cases Date_getTime getResourceUrl st id c Hc)
    as [->|(r & n & d & -> & _)]; cbn [final_state].
  - exists (revocation c). split; [done|]. unfold revocation.
    destruct (notification c); repeat constructor; done.
  - exists (revocation c ++ [NewNotification (next_handle st) n;
                             ShowAfter (next_handle st) d]).
    split; [rewrite armed_state_calls; cbn; by rewrite <- app_assoc|].
    apply Forall_app. split; [|repeat constructor; done].
    unfold revocation. destruct (notification c); repeat constructor; done.
Qed.

Lemma updateNotifications_no_setItem (Date_getTime : string → number)
    (getResourceUrl : string → string) (st : state) :
  ∃ new,
    calls (final_state (_updateNotifications Date_getTime getResourceUrl st))
    = calls st ++ new
    ∧ Forall (λ x, ∀ k v, x ≠ StorageSetItem k v) new.
Proof.
  unfold _updateNotifications, for_in_hash. unfold bind at 1. unfold get at 1.
  apply (for_in_keys_final
           (λ st', ∃ new, calls st' = calls st ++ new
                          ∧ Forall (λ x, ∀ k v, x ≠ StorageSetItem k v) new)).
  - intros k st1 (new1 & Hc1 & Hf1) Hk.
    destruct (updateNotifications_each_no_setItem Date_getTime getResourceUrl st1 k Hk)
      as (new2 & Hc2 & Hf2).
    exists (new1 ++ new2). split; [by rewrite Hc2, Hc1, <- app_assoc|].
    by apply Forall_app.
  - exists []. by rewrite app_nil_r.
Qed.

Lemma storage_getItem_app (cs xs : list host_call) (key : string) :
  Forall (λ x, ∀ k v, x ≠ StorageSetItem k v) xs →
  storage_getItem (cs ++ xs) key = storage_getItem cs key.
Proof.
  unfold storage_getItem. rewrite fold_left_app.
  generalize (fold_left
    (λ v c, match c with
            | StorageSetItem k w => if String.eqb k key then w else v
            | _ => v
            end) cs (Prim Null)).
  induction 1 as [|x xs Hx _ IH]; cbn; [done|].
  destruct x; try done. by destruct (Hx key0 v0).
Qed.

Lemma setParams_final_config (Date_getTime : string → number)
    (getResourceUrl : string → string) (param : params) (st : state) :
  same_config (assign_params param st)
    (final_state (setParams Date_getTime getResourceUrl param st)).
Proof.
  rewrite setParams_unfold. set (st1 := set_host _ _ _).
  destruct (updateNotifications_frame Date_getTime getResourceUrl st1) as [H _].
  exact H.
Qed.

Lemma setParams_final_storage (Date_getTime : string → number)
    (getResourceUrl : string → string) (param : params) (st : state) (key : string) :
  storage_getItem
    (calls (final_state (setParams Date_getTime getResourceUrl param st))) key
  = storage_getItem (calls st ++ persisted (assign_params param st)) key.
Proof.
  rewrite setParams_unfold. set (st1 := set_host _ _ _).
  destruct (updateNotifications_no_setItem Date_getTime getResourceUrl st1)
    as (new & -> & Hnew).
  by rewrite storage_getItem_app.
Qed.

Lemma storage_after_persisted (cs : list host_call) (st : state) :
  storage_getItem (cs ++ persisted st) "competition_delay" = Num (delay st)
  ∧ storage_getItem (cs ++ persisted st) "competition_rates" = rates st
  ∧ storage_getItem (cs ++ persisted st) "competition_displayTime"
    = Num (displayTime st)
  ∧ storage_getItem (cs ++ persisted st) "competition_audio" = Bool (audio st).
Proof. unfold storage_getItem. rewrite !fold_left_app. by cbn. Qed.

Section RoundTrips.

Variable Date_getTime : string → number.
Variable getResourceUrl : string → string.

(** X1. Settings survive a restart.  Whatever the outcome of [setParams],
    when the resulting rates are truthy, an object constructed over the
    store as [setParams] left it has the resulting rates, delay, display
    time and audio setting; its table is empty and its correction is
    null. *)
Theorem settings_round_trip (st host : state) (param : params) :
  let st' := final_state (setParams Date_getTime getResourceUrl param st) in
  JS.truthy (rates st') = true →
  ∃ st'',
    Competitions (storage_getItem (calls st')) host = Ok tt st''
    ∧ rates st'' = rates st'
    ∧ delay st'' = delay st'
    ∧ displayTime st'' = displayTime st'
    ∧ audio st'' = audio st'
    ∧ _hash st'' = ∅
    ∧ _timeCorrection st'' = Null.
Proof.
  intros st' Htruthy.
  destruct (setParams_final_config Date_getTime getResourceUrl param st)
    as (Hr & Hd & Ht & Ha & _ & _).
  fold st' in Hr, Hd, Ht, Ha.
  destruct (storage_after_persisted (calls st) (assign_params param st))
    as (Sd & Sr & St & Sa).
  rewrite <- !(setParams_final_storage Date_getTime getResourceUrl) in Sd, Sr, St, Sa.
  fold st' in Sd, Sr, St, Sa.
  eexists. split; [reflexivity|]. cbn.
  rewrite Sd, Sr, St, Sa, <- Hr, <- Hd, <- Ht, <- Ha, Htruthy. cbn.
  by destruct (audio st').
Qed.

(** X2. Handing [setParams] the object [getParams] returns changes nothing
    in the configuration, whatever the outcome of the reconciliation that
    follows; [getParams] itself leaves the state as it is. *)
Theorem getParams_setParams (st : state) :
  ∃ cfg,
    getParams st = Ok cfg st
    ∧ same_config st
        (final_state (setParams Date_getTime getResourceUrl (as_params cfg) st)).
Proof.
  eexists. split; [reflexivity|].
  apply (same_config_trans _ (assign_params
                                (as_params (rates st, delay st, displayTime st, audio st))
                                st));
    [|apply setParams_final_config].
  unfold same_config, assign_params. cbn.
  destruct (JS.truthy (rates st)), (JS.ge (delay st) (Int 0)),
    (JS.ge (displayTime st) (Int 0)); by repeat split.
Qed.

Lemma assign_params_idem (param : params) (st st2 : state) :
  same_config (assign_params param st) st2 →
  same_config st2 (assign_params param st2).
Proof.
  unfold same_config, assign_params. cbn.
  intros (Hr & Hd & Ht & Ha & _ & _). repeat split.
  - rewrite Hr. by destruct (JS.truthy (p_rates param)).
  - rewrite Hd. destruct (p_delay param) as [[| | |n|]|]; try done.
    by destruct (JS.ge n (Int 0)).
  - rewrite Ht. destruct (p_displayTime param) as [[| | |n|]|]; try done.
    by destruct (JS.ge n (Int 0)).
  - rewrite Ha. by destruct (JS.loose_ne_undefined (p_audio param)).
Qed.

(** X3. Sending the same parameter object a second time changes nothing
    more in the configuration: after the second [setParams] it is what the
    first left, whatever the outcomes of the two reconciliations. *)
Theorem setParams_twice (st : state) (param : params) :
  same_config
    (final_state (setParams Date_getTime getResourceUrl param st))
    (final_state
       (setParams Date_getTime getResourceUrl param
          (final_state (setParams Date_getTime getResourceUrl param st)))).
Proof.
  set (st1 := final_state (setParams Date_getTime getResourceUrl param st)).
  apply (same_config_trans _ (assign_params param st1));
    [|apply setParams_final_config].
  apply (assign_params_idem param st).
  apply setParams_final_config.
Qed.

End RoundTrips.

(** X1 on the idle sample, the display time being set to 10 s. *)
Lemma settings_round_trip_witness :
  let st' := final_state (setParams sample_Date_getTime sample_getResourceUrl
                            sample_display_ten sample_idle) in
  ∃ st'',
    Competitions (storage_getItem (calls st')) sample_idle = Ok tt st''
    ∧ rates st'' = rates st'
    ∧ delay st'' = delay st'
    ∧ displayTime st'' = displayTime st'
    ∧ audio st'' = audio st'
    ∧ _hash st'' = ∅
    ∧ _timeCorrection st'' = Null.
Proof.
  apply (settings_round_trip sample_Date_getTime sample_getResourceUrl
           sample_idle sample_idle sample_display_ten).
  vm_compute. reflexivity.
Defined.

(** ** A new object *)

(** X4. Over a store that answers null or undefined for the four settings,
    the constructor yields the rates [3, 5], a delay of 60 s, a display time
    of 0, the audio off, an empty table and a null correction, and calls
    nothing on the host. *)
Theorem constructor_defaults (getItem : string → value) (host : state) :
  (∀ key, getItem key = Prim Null ∨ getItem key = Prim Undefined) →
  Competitions getItem host
  = Ok tt {| rates := Arr [Num (Int 3); Num (Int 5)]; delay := Int 60;
             displayTime := Int 0; audio := false;
             _hash := ∅; _timeCorrection := Null;
             now := now host; next_handle := next_handle host;
             calls := calls host |}.
Proof.
  intros H. unfold Competitions, _init, bind, modify, ret.
  destruct (H "competition_rates") as [-> | ->],
           (H "competition_delay") as [-> | ->],
           (H "competition_displayTime") as [-> | ->],
           (H "competition_audio") as [-> | ->]; reflexivity.
Qed.

Lemma constructor_defaults_witness :
  Competitions sample_empty_store sample_one
  = Ok tt {| rates := Arr [Num (Int 3); Num (Int 5)]; delay := Int 60;
             displayTime := Int 0; audio := false;
             _hash := ∅; _timeCorrection := Null;
             now := now sample_one; next_handle := next_handle sample_one;
             calls := calls sample_one |}.
Proof.
  apply (constructor_defaults sample_empty_store sample_one).
  intros key. left. reflexivity.
Defined.

(** X5. Whatever the store holds, a newly constructed object computes no
    remaining time: for a string or a number [getRemainingTime] throws the
    state error, the correction being still null, and for any other value
    the type error.  The rates of a new object are always truthy. *)
Theorem constructed_no_remaining_time (Date_getTime : string → number)
    (getItem : string → value) (host : state) (bt : prim) :
  ∃ st,
    Competitions getItem host = Ok tt st
    ∧ JS.truthy (rates st) = true
    ∧ (JS.typeof bt = "string" ∨ JS.typeof bt = "number" →
       ∃ msg, getRemainingTime Date_getTime bt st = Throw (Error msg) st)
    ∧ (JS.typeof bt ≠ "string" → JS.typeof bt ≠ "number" →
       ∃ msg, getRemainingTime Date_getTime bt st = Throw (TypeError msg) st).
Proof.
  eexists. split; [reflexivity|]. split; [|split].
  - cbn. by destruct (JS.truthy (getItem "competition_rates")) eqn:E.
  - intros Hty. rewrite getRemainingTime_unfold.
    destruct bt; cbn in Hty |- *; first [by destruct Hty|by eexists].
  - intros H1 H2. rewrite getRemainingTime_unfold.
    destruct bt; cbn in H1, H2 |- *; first [done|by eexists].
Qed.

(** ** Error behaviour of [_notify] *)

Lemma strict_equals_Null_typed (bt : prim) :
  JS.typeof bt = "string" ∨ JS.typeof bt = "number" →
  JS.strict_equals bt Null = false.
Proof. destruct bt as [| | |[|]|]; cbn; intros [H|H]; done. Qed.

Section NotifyErrors.

Variable Date_getTime : string → number.
Variable getResourceUrl : string → string.

(** X6. [_notify] throws without side effect: whenever it throws, the state
    is the one it started from.  It throws the type error when the table
    has no record under the id, and when the start time of the record is
    neither a string nor a number (null included). *)
Theorem notify_throw_safe (st : state) (id : N) :
  (∀ e st', _notify Date_getTime getResourceUrl id st = Throw e st' → st' = st)
  ∧ (_hash st !! id = None →
     ∃ msg, _notify Date_getTime getResourceUrl id st = Throw (TypeError msg) st)
  ∧ (∀ c, _hash st !! id = Some c →
     JS.typeof (beginTime c) ≠ "string" → JS.typeof (beginTime c) ≠ "number" →
     ∃ msg, _notify Date_getTime getResourceUrl id st = Throw (TypeError msg) st).
Proof.
  split; [|split].
  - intros e st' Hthrow. destruct (_hash st !! id) as [c|] eqn:Hc.
    + destruct (notify_cases Date_getTime getResourceUrl st id c Hc)
        as [Hfin|(r & n & d & Harm & _)].
      * rewrite Hthrow in Hfin. done.
      * congruence.
    + unfold _notify, hash_get, bind, get in Hthrow. rewrite Hc in Hthrow.
      by injection Hthrow.
  - intros Hc. unfold _notify, hash_get, bind, get. rewrite Hc. by eexists.
  - intros c Hc H1 H2. rewrite (notify_unfold _ _ st id c Hc).
    rewrite getRemainingTime_unfold.
    assert (beginTimestamp Date_getTime (beginTime c) = None) as ->
      by by apply beginTimestamp_typeof.
    by eexists.
Qed.

End NotifyErrors.

(** ** [setParams] at the edges *)

Section SetParamsEdges.

Variable Date_getTime : string → number.
Variable getResourceUrl : string → string.

Lemma keys_empty : keys ∅ = [].
Proof. unfold keys. by rewrite map_to_list_empty. Qed.

(** X7. With an empty table, as on a new object or after a teardown,
    [setParams] returns normally whatever the correction and the rates are,
    and all it calls is the four [setItem] of the resulting values. *)
Theorem setParams_empty_table (st : state) (param : params) :
  _hash st = ∅ →
  ∃ st',
    setParams Date_getTime getResourceUrl param st = Ok tt st'
    ∧ calls st' = calls st ++ persisted st'
    ∧ same_config (assign_params param st) st'
    ∧ _hash st' = ∅
    ∧ next_handle st' = next_handle st.
Proof.
  intros Hempty. rewrite setParams_unfold.
  unfold _updateNotifications, for_in_hash, bind, get. cbn [_hash set_host].
  assert (_hash (assign_params param st) = ∅) as -> by done.
  rewrite keys_empty. cbn. eexists. split; [done|]. cbn.
  split; [done|]. split; [by repeat split|]. done.
Qed.

(** While the correction is not a number, the pass stops with the state
    error at the first record that has a start time. *)
Lemma updateNotifications_unset_loop (ks : list N) :
  ∀ st,
    JS.typeof (_timeCorrection st) ≠ "number" →
    (∀ k c, _hash st !! k = Some c → start_time_ok c) →
    (∃ k c, k ∈ ks ∧ _hash st !! k = Some c ∧ beginTime c ≠ Null) →
    ∃ msg st',
      for_in_keys ks (_updateNotifications_each Date_getTime getResourceUrl) st
      = Throw (Error msg) st'.
Proof.
  induction ks as [|k0 ks IH]; intros st Htc Hok (k & c & Hk & Hc & Hnn).
  - by apply elem_of_nil in Hk.
  - cbn [for_in_keys]. unfold bind at 1 2. unfold get at 1.
    destruct (_hash st !! k0) as [c0|] eqn:Hc0.
    + rewrite (updateNotifications_each_unfold _ _ st k0 c0 Hc0).
      destruct (Hok k0 c0 Hc0) as [Hnull|Hty].
      * rewrite Hnull. cbn [JS.strict_equals negb].
        apply (IH (revoked_state st c0)); [done..|].
        exists k, c. split; [|done].
        apply elem_of_cons in Hk as [->|Hk]; [congruence|done].
      * rewrite (strict_equals_Null_typed _ Hty). cbn [negb].
        rewrite (notify_unfold _ _ (revoked_state st c0) k0 c0 Hc0).
        rewrite getRemainingTime_unfold.
        destruct (beginTimestamp Date_getTime (beginTime c0)) as [ts|] eqn:Hts.
        -- cbn [_timeCorrection revoked_state set_host].
           destruct (_timeCorrection st); first [done|by eexists _, _].
        -- apply beginTimestamp_typeof in Hts as [? ?]. by destruct Hty.
    + unfold ret at 1. apply IH; [done..|].
      exists k, c. split; [|done].
      apply elem_of_cons in Hk as [->|Hk]; [congruence|done].
Qed.

(** X8. Called before the correction is established, on a table that holds
    a competition with a start time, [setParams] throws the state error;
    the configuration has been updated all the same, and the four
    [setItem] of the resulting values have been made. *)
Theorem setParams_before_correction (st : state) (param : params) :
  JS.typeof (_timeCorrection st) ≠ "number" →
  (∀ k c, _hash st !! k = Some c → start_time_ok c) →
  (∃ k c, _hash st !! k = Some c ∧ beginTime c ≠ Null) →
  ∃ msg st',
    setParams Date_getTime getResourceUrl param st = Throw (Error msg) st'
    ∧ same_config (assign_params param st) st'
    ∧ calls st ++ persisted st' `prefix_of` calls st'.
Proof.
  intros Htc Hok (k & c & Hc & Hnn).
  pose proof (setParams_final_config Date_getTime getResourceUrl param st) as Hcfg.
  rewrite setParams_unfold in Hcfg |- *. set (st1 := set_host _ _ _) in *.
  destruct (updateNotifications_frame Date_getTime getResourceUrl st1) as [_ Hpre].
  destruct (updateNotifications_unset_loop (keys (_hash st1)) st1)
    as (msg & st' & Hrun); [done|done| |].
  { exists k, c. split; [|done]. apply elem_of_keys. by exists c. }
  assert (_updateNotifications Date_getTime getResourceUrl st1 = Throw (Error msg) st')
    as Hrun' by exact Hrun.
  rewrite Hrun' in Hcfg, Hpre |- *. cbn [final_state] in Hcfg, Hpre.
  exists msg, st'. split; [done|]. split; [done|].
  destruct Hcfg as (Hr & Hd & Ht & Ha & _ & _).
  assert (persisted st' = persisted (assign_params param st)) as ->
    by (unfold persisted; by rewrite Hr, Hd, Ht, Ha).
  exact Hpre.
Qed.

End SetParamsEdges.

(** X7 on the idle sample. *)
Lemma setParams_empty_table_witness :
  ∃ st',
    setParams sample_Date_getTime sample_getResourceUrl sample_display_ten sample_idle
    = Ok tt st'
    ∧ calls st' = calls sample_idle ++ persisted st'
    ∧ same_config (assign_params sample_display_ten sample_idle) st'
    ∧ _hash st' = ∅
    ∧ next_handle st' = next_handle sample_idle.
Proof.
  apply (setParams_empty_table sample_Date_getTime sample_getResourceUrl
           sample_idle sample_display_ten).
  reflexivity.
Defined.

(** X8 on the sample competition with the correction still null. *)
Lemma setParams_before_correction_witness :
  ∃ msg st',
    setParams sample_Date_getTime sample_getResourceUrl sample_display_ten sample_unset
    = Throw (Error msg) st'
    ∧ same_config (assign_params sample_display_ten sample_unset) st'
    ∧ calls sample_unset ++ persisted st' `prefix_of` calls st'.
Proof.
  apply (setParams_before_correction sample_Date_getTime sample_getResourceUrl
           sample_unset sample_display_ten).
  - discriminate.
  - intros k c Hc. unfold sample_unset in Hc. cbn [_hash] in Hc.
    apply lookup_singleton_Some in Hc as [_ <-]. right. right. reflexivity.
  - exists 7%N, sample_c7. split; [reflexivity|discriminate].
Defined.

(** ** Pruning and clearing, composed *)

Lemma lapsed_set_hash (Date_getTime : string → number) (m : gmap N competition)
    (st : state) (c : competition) :
  lapsed Date_getTime (set_hash m st) c = lapsed Date_getTime st c.
Proof. reflexivity. Qed.

Lemma clearStarted_result (Date_getTime : string → number) (st : state)
    (tc : number) :
  _timeCorrection st = Num tc →
  (∀ k c, _hash st !! k = Some c → start_time_ok c) →
  _clearStarted Date_getTime st
  = Ok tt (set_hash (filter (λ kc, lapsed Date_getTime st kc.2 = false) (_hash st))
             st).
Proof.
  intros Htc Hok.
  destruct (clearStarted_loop Date_getTime (keys (_hash st)) st tc Htc Hok)
    as (m' & Hrun & Hm').
  unfold _clearStarted, for_in_hash. unfold bind at 1. unfold get at 1.
  rewrite Hrun. do 2 f_equal.
  apply map_eq. intros k. rewrite Hm'.
  destruct (_hash st !! k) as [c|] eqn:Hc.
  - rewrite (bool_decide_eq_true_2 (k ∈ keys (_hash st)))
      by (apply elem_of_keys; by exists c).
    cbn [andb]. destruct (lapsed Date_getTime st c) eqn:Hl; symmetry.
    + apply map_lookup_filter_None. right. intros c' Hc'. cbn. congruence.
    + by apply map_lookup_filter_Some.
  - symmetry. apply map_lookup_filter_None. by left.
Qed.

Section PruneAndClear.

Variable Date_getTime : string → number.
Variable getResourceUrl : string → string.

(** X9. Pruning twice at the same clock reading is pruning once: with the
    correction established and every start time null, a string or a number,
    a second [_clearStarted] returns the state the first one left. *)
Theorem clearStarted_twice (st : state) (tc : number) :
  _timeCorrection st = Num tc →
  (∀ k c, _hash st !! k = Some c → start_time_ok c) →
  ∃ st',
    _clearStarted Date_getTime st = Ok tt st'
    ∧ _clearStarted Date_getTime st' = Ok tt st'.
Proof.
  intros Htc Hok. rewrite (clearStarted_result _ st tc Htc Hok).
  eexists. split; [done|].
  rewrite (clearStarted_result _ _ tc); [|done|].
  - f_equal. cbn [_hash set_hash]. rewrite set_hash_set_hash. f_equal.
    apply map_filter_id. intros k c Hc.
    apply map_lookup_filter_Some in Hc as [_ Hc]. exact Hc.
  - intros k c Hc. cbn in Hc.
    apply map_lookup_filter_Some in Hc as [Hc _]. by apply (Hok k).
Qed.

(** X10. The full clear run a second time finds nothing to do: it returns
    the state the first one left, with no further call. *)
Theorem clearAll_twice (st : state) :
  ∃ st', _clearAll st = Ok tt st' ∧ _clearAll st' = Ok tt st'.
Proof.
  rewrite clearAll_result. eexists. split; [done|].
  rewrite clearAll_result. cbn [_hash set_hash]. rewrite keys_empty.
  f_equal. state_eq. by rewrite app_nil_r.
Qed.

(** X11. A notification can outlive its record.  When the selective prune
    deletes a record whose notification is armed, and no record that stays
    refers to that notification, the full clear that follows does not revoke
    it: the table ends up empty with the notification still armed. *)
Theorem prune_then_clear_leaves_armed (st : state) (tc : number) (k : N)
    (c : competition) (h : handle) (g : Z) :
  _timeCorrection st = Num tc →
  (∀ k c, _hash st !! k = Some c → start_time_ok c) →
  _hash st !! k = Some c →
  lapsed Date_getTime st c = true →
  notification c = Some h →
  live_for (calls st) h g →
  (∀ k' c', _hash st !! k' = Some c' → notification c' = Some h →
            lapsed Date_getTime st c' = true) →
  ∃ st1 st2,
    _clearStarted Date_getTime st = Ok tt st1
    ∧ _hash st1 !! k = None
    ∧ _clearAll st1 = Ok tt st2
    ∧ _hash st2 = ∅
    ∧ live_for (calls st2) h g.
Proof.
  intros Htc Hok Hc Hl Hh [Hnew Hrev] Honly.
  rewrite (clearStarted_result _ st tc Htc Hok).
  eexists _, _. split; [done|]. split.
  { cbn. apply map_lookup_filter_None. right. intros c' Hc'. cbn. congruence. }
  rewrite clearAll_result. split; [done|]. split; [done|].
  cbn [calls set_hash set_host _hash]. split.
  - destruct Hnew as (n & Hn & Hg). exists n. split; [|done].
    apply elem_of_app. by left.
  - intros Hin. apply elem_of_app in Hin as [Hin|Hin]; [done|].
    apply elem_of_revocations in Hin as (k' & c' & h' & _ & Hc' & Hh' & [= <-]).
    apply map_lookup_filter_Some in Hc' as [Hc' Hl']. cbn in Hl'.
    rewrite (Honly k' c' Hc' Hh') in Hl'. done.
Qed.

(** X12. A start time the date parser cannot read is taken as already
    reached: with the correction established, [_notify] arms nothing for
    the record and leaves the state as it is, and the selective prune
    deletes the record. *)
Theorem unparseable_start (st : state) (tc : number) (id : N)
    (c : competition) (s : string) :
  _timeCorrection st = Num tc →
  (∀ k c, _hash st !! k = Some c → start_time_ok c) →
  _hash st !! id = Some c →
  beginTime c = Str s →
  Date_getTime s = NaN →
  _notify Date_getTime getResourceUrl id st = Ok tt st
  ∧ ∃ st', _clearStarted Date_getTime st = Ok tt st' ∧ _hash st' !! id = None.
Proof.
  intros Htc Hok Hc Hb Hs. split.
  - rewrite (notify_unfold _ _ st id c Hc), getRemainingTime_unfold, Hb. cbn.
    rewrite Hs, Htc. cbn. by rewrite Bool.andb_false_r.
  - rewrite (clearStarted_result _ st tc Htc Hok). eexists. split; [done|].
    cbn. apply map_lookup_filter_None. right. intros c' Hc'. cbn.
    assert (c' = c) as -> by congruence.
    unfold lapsed. rewrite Hb. cbn. rewrite Hs, Htc. done.
Qed.

End PruneAndClear.

(** X9 on the competition due in 400 ms. *)
Lemma clearStarted_twice_witness :
  ∃ st',
    _clearStarted sample_Date_getTime sample_soon = Ok tt st'
    ∧ _clearStarted sample_Date_getTime st' = Ok tt st'.
Proof.
  apply (clearStarted_twice sample_Date_getTime sample_soon (Int 250)).
  - reflexivity.
  - intros k c Hc. unfold sample_soon in Hc. cbn [_hash] in Hc.
    apply lookup_singleton_Some in Hc as [_ <-]. right. right. reflexivity.
Defined.

(** X11 on the competition due in 400 ms, its notification armed. *)
Lemma prune_then_clear_leaves_armed_witness :
  ∃ st1 st2,
    _clearStarted sample_Date_getTime sample_due = Ok tt st1
    ∧ _hash st1 !! 3%N = None
    ∧ _clearAll st1 = Ok tt st2
    ∧ _hash st2 = ∅
    ∧ live_for (calls st2) 0%nat 3.
Proof.
  apply (prune_then_clear_leaves_armed sample_Date_getTime sample_due (Int 250)
           3%N {| c_id := 3; ratingValue := Num (Int 5); beginTime := Num (Int 10);
                  notification := Some 0%nat |} 0%nat 3).
  - reflexivity.
  - intros k c Hc. unfold sample_due in Hc. cbn [_hash] in Hc.
    apply lookup_singleton_Some in Hc as [_ <-]. right. right. reflexivity.
  - reflexivity.
  - reflexivity.
  - reflexivity.
  - split.
    + eexists. split; [apply list_elem_of_here|reflexivity].
    + intros Hin. unfold sample_due in Hin. cbn [calls] in Hin.
      repeat (apply elem_of_cons in Hin as [Hin|Hin]); try discriminate.
      by apply elem_of_nil in Hin.
  - intros k' c' Hc' _. unfold sample_due in Hc'. cbn [_hash] in Hc'.
    apply lookup_singleton_Some in Hc' as [_ <-]. reflexivity.
Defined.

(** X12 on the competition whose start time is the string "tomorrow". *)
Lemma unparseable_start_witness :
  _notify sample_Date_getTime sample_getResourceUrl 8%N sample_unread
  = Ok tt sample_unread
  ∧ ∃ st', _clearStarted sample_Date_getTime sample_unread = Ok tt st'
           ∧ _hash st' !! 8%N = None.
Proof.
  apply (unparseable_start sample_Date_getTime sample_getResourceUrl
           sample_unread (Int 250) 8%N sample_c8 "tomorrow").
  - reflexivity.
  - intros k c Hc. unfold sample_unread in Hc. cbn [_hash] in Hc.
    apply lookup_singleton_Some in Hc as [_ <-]. right. left. reflexivity.
  - reflexivity.
  - reflexivity.
  - reflexivity.
Defined.

(** ** The countdown *)

Lemma Math_round_mono (x y : Z) (d : positive) :
  x ≤ y → JS.Math_round (x # d) ≤ JS.Math_round (y # d).
Proof.
  intros H. rewrite !Math_round_div. apply Z.div_le_mono; lia.
Qed.

(** X13. The countdown never goes up: for a start time that is a string or
    a number and one and the same established correction, a later clock
    reading gives a remaining time that is no greater, and never
    negative. *)
Theorem getRemainingTime_antitone (Date_getTime : string → number)
    (st1 st2 : state) (bt : prim) (ts tc : number) :
  beginTimestamp Date_getTime bt = Some ts →
  _timeCorrection st1 = Num tc →
  _timeCorrection st2 = Num tc →
  now st1 ≤ now st2 →
  ∃ r1 r2,
    getRemainingTime Date_getTime bt st1 = Ok (Int r1) st1
    ∧ getRemainingTime Date_getTime bt st2 = Ok (Int r2) st2
    ∧ 0 ≤ r2 ≤ r1.
Proof.
  intros Hts H1 H2 Hnow. rewrite !getRemainingTime_unfold, Hts, H1, H2. cbn zeta.
  destruct ts as [|ts], tc as [|t]; cbn; try (exists 0, 0; by repeat split).
  destruct (Z.ltb_spec 0 (ts - (now st1 + t))) as [Hd1|Hd1],
           (Z.ltb_spec 0 (ts - (now st2 + t))) as [Hd2|Hd2]; try lia.
  - eexists _, _. split; [done|]. split; [done|]. split.
    + by apply Math_round_1000_pos.
    + apply Math_round_mono. lia.
  - eexists _, 0. split; [done|]. split; [done|]. split; [done|].
    by apply Math_round_1000_pos.
  - exists 0, 0. by repeat split.
Qed.

Lemma getRemainingTime_antitone_witness :
  ∃ r1 r2,
    getRemainingTime sample_Date_getTime (Num (Int 10)) sample_idle
    = Ok (Int r1) sample_idle
    ∧ getRemainingTime sample_Date_getTime (Num (Int 10)) sample_soon
      = Ok (Int r2) sample_soon
    ∧ 0 ≤ r2 ≤ r1.
Proof.
  apply (getRemainingTime_antitone sample_Date_getTime sample_idle sample_soon
           (Num (Int 10)) (Int 10000) (Int 250)); try reflexivity.
  vm_compute. discriminate.
Defined.

(** ** The click and the pre-display hook *)

Lemma before_viewing (getResourceUrl : string → string) (st : state)
    (c : competition) (tabs : list tab) :
  viewing tabs c → notification_before getResourceUrl c tabs st = Ok false st.
Proof.
  intros Hv. apply found_viewing in Hv.
  unfold notification_before, bind, get. rewrite Hv. cbn.
  unfold ret. f_equal.
Qed.

(** X14. A click on the notification opens the page of the competition in
    a focused tab and then revokes the notification, which is armed no
    more; the table is not touched.  With the tab so opened among the open
    tabs, the pre-display hook of a notification of the same competition
    resolves with false and plays nothing. *)
Theorem onclick_opens_and_revokes (st : state) (c : competition) (h : handle) :
  ∃ st',
    notification_onclick c h st = Ok tt st'
    ∧ calls st' = calls st ++ [TabsCreate (competition_url c) true; Revoke h]
    ∧ (∀ g, ¬ live_for (calls st') h g)
    ∧ st' = set_host (next_handle st) (calls st') st
    ∧ ∀ getResourceUrl tabs st2,
        {| _tab := true; getUrl := competition_url c |} ∈ tabs →
        notification_before getResourceUrl c tabs st2 = Ok false st2.
Proof.
  eexists. split; [reflexivity|]. cbn. rewrite <- app_assoc. cbn.
  split; [done|]. split; [|split; [done|]].
  - intros g [_ Hrev]. apply Hrev. apply elem_of_app. right.
    apply elem_of_cons. right. apply list_elem_of_here.
  - intros getResourceUrl tabs st2 Hin. apply before_viewing.
    eexists. split; [exact Hin|]. split; [done|]. apply competition_url_targets.
Qed.

Lemma digits_no_equals_uint (d : Decimal.uint) :
  "="%char ∉ list_ascii_of_string (NilEmpty.string_of_uint d).
Proof.
  induction d; cbn; [by intros ?%elem_of_nil|..];
    intros [?|?]%elem_of_cons; done.
Qed.

Lemma digits_no_equals (z : Z) :
  "="%char ∉ list_ascii_of_string (JS.ToString_number (Int z)).
Proof.
  unfold JS.ToString_number, NilZero.string_of_int, NilZero.string_of_uint.
  destruct z as [|p|p]; cbn.
  - intros [?|?%elem_of_nil]%elem_of_cons; done.
  - destruct (Pos.to_uint p) eqn:E;
      [intros [?|?%elem_of_nil]%elem_of_cons; done|..];
      rewrite <- E; apply digits_no_equals_uint.
  - intros [?|Hin]%elem_of_cons; [done|]. revert Hin.
    destruct (Pos.to_uint p) eqn:E;
      [intros [?|?%elem_of_nil]%elem_of_cons; done|..];
      rewrite <- E; apply digits_no_equals_uint.
Qed.

Lemma ToString_number_inj (a b : Z) :
  JS.ToString_number (Int a) = JS.ToString_number (Int b) → a = b.
Proof.
  unfold JS.ToString_number. intros H.
  apply DecimalZ.to_int_inj.
  assert (∀ z, NilZero.int_of_string (NilZero.string_of_int (Z.to_int z))
               = Some (Z.to_int z)) as Hisi.
  { intros z. apply NilZero.isi; destruct z as [|p|p]; cbn; try done;
      intros [= E]; by apply DecimalPos.Unsigned.to_uint_nonnil in E. }
  pose proof (Hisi a) as Ha. rewrite H, Hisi in Ha. by injection Ha.
Qed.

Lemma last_separator (x : ascii) (l1 l2 s1 s2 : list ascii) :
  l1 ++ x :: s1 = l2 ++ x :: s2 → x ∉ s1 → x ∉ s2 → s1 = s2.
Proof.
  revert l2. induction l1 as [|a l1 IH]; intros [|b l2] Heq H1 H2; cbn in Heq.
  - by injection Heq.
  - injection Heq as -> ->. destruct H1. apply elem_of_app. right.
    apply list_elem_of_here.
  - injection Heq as -> <-. destruct H2. apply elem_of_app. right.
    apply list_elem_of_here.
  - injection Heq as -> Heq. by apply (IH l2).
Qed.

(** X15. The pre-display hook tells competitions apart.  When every open
    tab that counts shows the page of some competition with another id, the
    hook of a notification of the competition [a] resolves with true, and
    plays the sound when the audio setting is on: a tab on the page of
    another competition is not taken for a tab on the page of this one. *)
Theorem before_other_competition (getResourceUrl : string → string)
    (st : state) (a : competition) (tabs : list tab) :
  (∀ t, t ∈ tabs → _tab t = true →
        ∃ b, c_id b ≠ c_id a ∧ url_targets (getUrl t) b) →
  notification_before getResourceUrl a tabs st
  = Ok true
      (if audio st
       then set_host (next_handle st)
              (calls st ++ [AudioPlay (getResourceUrl "res/competition.ogg")]) st
       else st).
Proof.
  intros Htabs.
  assert (¬ viewing tabs a) as Hv.
  { intros (t & Hin & Htab & Ha).
    destruct (Htabs t Hin Htab) as (b & Hne & Hb).
    destruct Ha as (pa & wa & Ea & _), Hb as (pb & wb & Eb & _).
    apply Hne. symmetry. apply ToString_number_inj.
    rewrite <- (string_of_list_ascii_of_string (JS.ToString_number (Int (c_id a)))),
            <- (string_of_list_ascii_of_string (JS.ToString_number (Int (c_id b)))).
    f_equal. rewrite Ea in Eb.
    apply (last_separator "="%char
             (pa ++ list_ascii_of_string "klavogonki" ++ [wa]
                ++ list_ascii_of_string "ru/g/?gmid")
             (pb ++ list_ascii_of_string "klavogonki" ++ [wb]
                ++ list_ascii_of_string "ru/g/?gmid"));
      [|apply digits_no_equals..].
    rewrite <- !app_assoc. cbn in *. exact Eb. }
  unfold notification_before, bind, get.
  destruct (existsb _ tabs) eqn:Hf; [by apply found_viewing in Hf|].
  cbn. by destruct (audio st).
Qed.

Lemma before_other_competition_witness :
  notification_before sample_getResourceUrl sample_c3
    [{| _tab := true; getUrl := competition_url sample_c7 |};
     {| _tab := true; getUrl := competition_url sample_c5 |}] sample_loud
  = Ok true
      (if audio sample_loud
       then set_host (next_handle sample_loud)
              (calls sample_loud
                 ++ [AudioPlay (sample_getResourceUrl "res/competition.ogg")])
              sample_loud
       else sample_loud).
Proof.
  apply (before_other_competition sample_getResourceUrl sample_loud sample_c3).
  intros t Hin _.
  apply elem_of_cons in Hin as [->|Hin];
    [|apply list_elem_of_singleton in Hin as ->].
  - exists sample_c7. split; [done|apply competition_url_targets].
  - exists sample_c5. split; [done|apply competition_url_targets].
Defined.

(** X16. The hook reads the audio setting when it runs, not when the
    notification was made: once [setParams] has been called with an [audio]
    property that is falsy and neither undefined nor null, whatever the
    outcome of that call, the hook of any notification leaves the state as
    it is, so no sound is played. *)
Theorem before_silent_after_setParams (Date_getTime : string → number)
    (getResourceUrl : string → string) (param : params) (st : state)
    (c : competition) (tabs : list tab) :
  JS.loose_ne_undefined (p_audio param) = true →
  JS.truthy (p_audio param) = false →
  let st' := final_state (setParams Date_getTime getResourceUrl param st) in
  ∃ b, notification_before getResourceUrl c tabs st' = Ok b st'.
Proof.
  intros Hdef Hfalsy st'.
  destruct (setParams_final_config Date_getTime getResourceUrl param st)
    as (_ & _ & _ & Ha & _).
  fold st' in Ha. unfold assign_params in Ha. cbn in Ha.
  rewrite Hdef, Hfalsy in Ha.
  unfold notification_before, bind, get. rewrite Ha, andb_false_r. cbn.
  by eexists.
Qed.

Lemma before_silent_after_setParams_witness :
  let st' := final_state (setParams sample_Date_getTime sample_getResourceUrl
                            sample_audio_off sample_loud) in
  ∃ b, notification_before sample_getResourceUrl sample_c7 [] st' = Ok b st'.
Proof.
  apply (before_silent_after_setParams sample_Date_getTime sample_getResourceUrl
           sample_audio_off sample_loud sample_c7 []); reflexivity.
Defined.

(** ** [_notify] does not revoke *)

Section NotifyTwice.

Variable Date_getTime : string → number.
Variable getResourceUrl : string → string.

(** X17. [_notify] never revokes: called twice for a record that is
    eligible, with no call to revoke in between, it creates two
    notifications for the same competition, both armed afterwards, and the
    record refers to the second. *)
Theorem notify_twice_arms_two (st : state) (id : N) (c : competition) :
  _hash st !! id = Some c →
  eligible Date_getTime st c →
  allocated st →
  let h := next_handle st in
  ∃ n1 d1 n2 d2 st2,
    (run _notify Date_getTime getResourceUrl id then
     _notify Date_getTime getResourceUrl id) st = Ok tt st2
    ∧ calls st2 = calls st ++ [NewNotification h n1; ShowAfter h d1;
                               NewNotification (S h) n2; ShowAfter (S h) d2]
    ∧ live_for (calls st2) h (c_id c)
    ∧ live_for (calls st2) (S h) (c_id c)
    ∧ _hash st2 !! id = Some (set_notification (S h) c)
    ∧ ¬ armed_once (calls st2).
Proof.
  intros Hc (r & l & Hr & Hd & Hr0 & Hl & Hin) [Hrev _] h.
  pose proof (rates_indexOf_Arr st l (ratingValue c) Hl) as Hi.
  apply (Array_indexOf_from_found 0) in Hin; [|lia].
  destruct (notify_arming Date_getTime getResourceUrl st id c r _ Hc Hr Hd Hr0 Hi Hin)
    as (n1 & d1 & Hn1 & Hg1 & _).
  set (st1 := armed_state st id n1 d1) in *.
  assert (_hash st1 !! id = Some (set_notification h c)) as Hc1.
  { cbn. by rewrite lookup_alter_eq, Hc. }
  assert (same_config st st1) as Hcfg by by repeat split.
  pose proof (getRemainingTime_same_config Date_getTime _ st st1 r Hcfg Hr) as Hr1.
  pose proof (rates_indexOf_Arr st1 l (ratingValue c) Hl) as Hi1.
  destruct (notify_arming Date_getTime getResourceUrl st1 id
              (set_notification h c) r _ Hc1 Hr1 Hd Hr0 Hi1 Hin)
    as (n2 & d2 & Hn2 & Hg2 & _).
  exists n1, d1, n2, d2, (armed_state st1 id n2 d2).
  assert (calls (armed_state st1 id n2 d2)
          = calls st ++ [NewNotification h n1; ShowAfter h d1;
                         NewNotification (S h) n2; ShowAfter (S h) d2]) as Hcalls.
  { unfold st1. cbn. by rewrite <- app_assoc. }
  assert (∀ k, (h ≤ k)%nat → Revoke k ∉ calls (armed_state st1 id n2 d2)) as Hnr.
  { intros k Hk. rewrite Hcalls. intros [Hin'|Hin']%elem_of_app.
    - apply Hrev in Hin'. unfold h in Hk. lia.
    - repeat (apply elem_of_cons in Hin' as [?|Hin']; [done|]).
      by apply elem_of_nil in Hin'. }
  assert (live_for (calls (armed_state st1 id n2 d2)) h (c_id c)) as Hl1.
  { split; [|apply Hnr; lia]. exists n1. split; [|done].
    rewrite Hcalls. apply elem_of_app. right. apply list_elem_of_here. }
  assert (live_for (calls (armed_state st1 id n2 d2)) (S h) (c_id c)) as Hl2.
  { split; [|apply Hnr; lia]. exists n2. split; [|done].
    rewrite Hcalls. apply elem_of_app. right.
    do 2 apply list_elem_of_further. apply list_elem_of_here. }
  split.
  { unfold bind. rewrite Hn1. exact Hn2. }
  split; [done|]. split; [done|]. split; [done|]. split.
  - cbn. rewrite lookup_alter_eq, lookup_alter_eq, Hc. done.
  - intros Honce. specialize (Honce h (S h) (c_id c) Hl1 Hl2). lia.
Qed.

End NotifyTwice.

Lemma notify_twice_arms_two_witness :
  ∃ n1 d1 n2 d2 st2,
    (run _notify sample_Date_getTime sample_getResourceUrl 7%N then
     _notify sample_Date_getTime sample_getResourceUrl 7%N) sample_one = Ok tt st2
    ∧ calls st2 = calls sample_one
                  ++ [NewNotification 0%nat n1; ShowAfter 0%nat d1;
                      NewNotification 1%nat n2; ShowAfter 1%nat d2]
    ∧ live_for (calls st2) 0%nat 7
    ∧ live_for (calls st2) 1%nat 7
    ∧ _hash st2 !! 7%N = Some (set_notification 1%nat sample_c7)
    ∧ ¬ armed_once (calls st2).
Proof.
  apply (notify_twice_arms_two sample_Date_getTime sample_getResourceUrl
           sample_one 7%N sample_c7).
  - reflexivity.
  - exists (Int 300), [Num (Int 3); Num (Int 5)].
    split; [reflexivity|]. split; [reflexivity|]. split; [reflexivity|].
    split; [reflexivity|]. exists (Num (Int 3)).
    split; [apply list_elem_of_here|reflexivity].
  - split.
    + intros h Hin. by apply elem_of_nil in Hin.
    + intros k c h Hk Hn. unfold sample_one in Hk. cbn [_hash] in Hk.
      apply lookup_singleton_Some in Hk as [_ <-]. done.
Defined.

(** ** [setParams] and the table *)

Lemma same_events_armed_state (st : state) (id : N) (n : DeferredNotification)
    (d : number) :
  same_events st (armed_state st id n d).
Proof.
  intros k. cbn. destruct (decide (k = id)) as [->|Hne].
  - rewrite lookup_alter_eq. destruct (_hash st !! id) as [c|]; [|done].
    by exists (set_notification (next_handle st) c).
  - rewrite lookup_alter_ne by done.
    destruct (_hash st !! k) as [c|]; [by exists c|done].
Qed.

(** X18. [setParams] neither adds nor removes a competition, whatever it is
    given and whether it returns or throws: the table it leaves holds the
    same records under the same names, with their id, rating value and
    start time; only the notification a record refers to can change. *)
Theorem setParams_keeps_table (Date_getTime : string → number)
    (getResourceUrl : string → string) (param : params) (st : state) :
  same_events st (final_state (setParams Date_getTime getResourceUrl param st)).
Proof.
  rewrite setParams_unfold.
  unfold _updateNotifications, for_in_hash. unfold bind at 1. unfold get at 1.
  apply (for_in_keys_final (λ st', same_events st st')).
  - intros k st1 Hev [c Hc].
    apply (same_events_trans st st1); [done|].
    destruct (updateNotifications_each_cases Date_getTime getResourceUrl st1 k c Hc)
      as [->|(r & n & d & -> & _)]; cbn [final_state].
    + intros k'. cbn. destruct (_hash st1 !! k') as [c'|]; [by exists c'|done].
    + apply (same_events_trans _ (revoked_state st1 c)).
      * intros k'. cbn. destruct (_hash st1 !! k') as [c'|]; [by exists c'|done].
      * apply same_events_armed_state.
  - intros k. cbn. destruct (_hash st !! k) as [c|]; [by exists c|done].
Qed.
